(** * Medical Documents API: upload / list / download / delete

    A shallow embedding of [server/main.py].  The request handlers are
    written in a small state-and-exception monad over an explicit model of
    the two stores they touch (the upload directory and the [documents]
    table), and the properties of the ingestion protocol are proved about
    those handlers. *)

From Stdlib Require Import ZArith Lia Strings.String Strings.Ascii Strings.Byte Lists.List.
From stdpp Require Import base gmap strings list fin_maps pretty sorting.

Local Open Scope Z_scope.
Local Open Scope string_scope.

(** ** Python values *)

(** Exceptions.  [HTTPException] is FastAPI's; the others stand for what the
    standard library and the drivers raise: [ValueError] for an operation on
    a closed file object, [OSError] for a failing filesystem call and
    [DatabaseError] for a failing [aiosqlite] call. *)
Inductive exn : Type :=
  | HTTPException (status_code : Z) (detail : string)
  | ValueError
  | OSError
  | DatabaseError.

Definition is_HTTPException (e : exn) : bool :=
  match e with HTTPException _ _ => true | _ => false end.

(** [str.lower()] on the ASCII range (file names are modelled as byte
    strings; no case mapping outside ASCII yields one of [.], [p], [d], [f]). *)
Definition lower_ascii (c : ascii) : ascii :=
  let n := N_of_ascii c in
  if ((65 <=? n) && (n <=? 90))%N then ascii_of_N (n + 32) else c.

Fixpoint lower (s : string) : string :=
  match s with
  | EmptyString => EmptyString
  | String c s' => String (lower_ascii c) (lower s')
  end.

(** [s.endswith(suffix)]: the last [len(suffix)] characters of [s] are
    [suffix]. *)
Definition endswith (s suffix : string) : bool :=
  let n := String.length s in
  let k := String.length suffix in
  if (k <=? n)%nat then String.eqb (substring (n - k) k s) suffix else false.

(** [bytes.startswith(prefix)]. *)
Fixpoint startswith (b prefix : list byte) {struct prefix} : bool :=
  match prefix, b with
  | [], _ => true
  | p :: prefix', x :: b' => Byte.eqb x p && startswith b' prefix'
  | _ :: _, [] => false
  end.

(** The literal [b'%PDF']. *)
Definition PDF_MAGIC : list byte := [x25; x50; x44; x46]%byte.

(** ** File objects *)

(** The binary file object behind an [UploadFile]: its bytes, the read
    position, and whether it has been closed. *)
Record stream : Type := Stream {
  data : list byte;
  pos : nat;
  closed : bool
}.

(** [f.seek(offset, whence)] for the two uses in the program: [whence = 0]
    (absolute) and [whence = 2] (relative to the end), with a non-negative
    resulting position. *)
Definition seek (offset : nat) (whence : Z) (f : stream) : exn + stream :=
  if closed f then inl ValueError
  else if (whence =? 2)%Z
       then inr (Stream (data f) (length (data f) + offset) false)
       else inr (Stream (data f) offset false).

Definition tell (f : stream) : exn + Z :=
  if closed f then inl ValueError else inr (Z.of_nat (pos f)).

(** [f.read(n)]: at most [n] bytes from the read position, which advances by
    what was read. *)
Definition read (n : nat) (f : stream) : exn + (list byte * stream) :=
  if closed f then inl ValueError
  else let chunk := take n (drop (pos f) (data f)) in
       inr (chunk, Stream (data f) (pos f + length chunk) false).

(** [f.read()]: everything from the read position to the end. *)
Definition read_all (f : stream) : exn + (list byte * stream) :=
  if closed f then inl ValueError
  else let chunk := drop (pos f) (data f) in
       inr (chunk, Stream (data f) (pos f + length chunk) false).

Record UploadFile : Type := mkUploadFile {
  filename : string;
  file : stream
}.

(** ** Content validation *)

(** [validate_pdf_file]: the verdict together with the file object as the
    call leaves it (its read position is mutated by [seek] and [read]).  An
    exception of a stream operation is caught and answered [False]; the
    stream then stays where the failing call found it. *)
Definition validate_pdf_file (f : UploadFile) : bool * UploadFile :=
  if negb (endswith (lower (filename f)) ".pdf") then (false, f)
  else
    match seek 0 0 (file f) with
    | inl _ => (false, f)
    | inr s0 =>
      match read 1024 s0 with
      | inl _ => (false, mkUploadFile (filename f) s0)
      | inr (header, s1) =>
        match seek 0 0 s1 with
        | inl _ => (false, mkUploadFile (filename f) s1)
        | inr s2 =>
          if startswith header PDF_MAGIC
          then (true, mkUploadFile (filename f) s2)
          else (false, mkUploadFile (filename f) s2)
        end
      end
    end.

(** ** Unique names *)

(** [s.rfind(c)]: the index of the last occurrence of [c], or [-1]. *)
Fixpoint rfind_from (c : ascii) (s : string) (i last : Z) : Z :=
  match s with
  | EmptyString => last
  | String a s' => rfind_from c s' (i + 1) (if Ascii.eqb a c then i else last)
  end.

Definition rfind (c : ascii) (s : string) : Z := rfind_from c s 0 (-1).

(** The scan of [genericpath._splitext] over the characters between the last
    separator and the last dot: it stops at the first one that is not a
    dot. *)
Fixpoint has_non_dot (s : string) : bool :=
  match s with
  | EmptyString => false
  | String a s' => if Ascii.eqb a "." then has_non_dot s' else true
  end.

(** [os.path.splitext] (POSIX flavour: separator [/], extension separator
    [.]). *)
Definition splitext (p : string) : string * string :=
  let sepIndex := rfind "/" p in
  let dotIndex := rfind "." p in
  if (sepIndex <? dotIndex)%Z then
    let filenameIndex := (sepIndex + 1)%Z in
    if has_non_dot (substring (Z.to_nat filenameIndex)
                              (Z.to_nat (dotIndex - filenameIndex)) p)
    then (substring 0 (Z.to_nat dotIndex) p,
          substring (Z.to_nat dotIndex) (String.length p - Z.to_nat dotIndex) p)
    else (p, "")
  else (p, "").

Definition UPLOAD_DIR : string := "server/uploads".
Definition MAX_FILE_SIZE : Z := 10 * 1024 * 1024.

(** [UPLOAD_DIR / name], as the string [str(file_path)] that is stored in the
    index and turned back into a [Path] by the other handlers.  [pathlib]'s
    collapsing of repeated separators inside [name] is not modelled; it is
    the same on both sides. *)
Definition path_join (dir name : string) : string := dir ++ "/" ++ name.

(** ** The two stores *)

(** A row of the [documents] table without its [id], which is the key of the
    table. *)
Record document_row : Type := mkRow {
  row_filename : string;
  original_name : string;
  filepath : string;
  filesize : Z;
  created_at : string
}.

(** The table, and the counter SQLite keeps for an [AUTOINCREMENT] key (the
    largest rowid ever handed out). *)
Record database : Type := mkDatabase {
  documents : gmap Z document_row;
  sqlite_sequence : Z
}.

(** What is shared between requests and survives them: the files under the
    upload directory, by path, and the committed table. *)
Record store : Type := mkStore {
  disk : gmap string (list byte);
  index : database
}.

Definition empty_store : store := mkStore ∅ (mkDatabase ∅ 0).

(** The largest key present (0 for an empty table). *)
Definition max_rowid (t : gmap Z document_row) : Z :=
  map_fold (λ k _ acc, Z.max k acc) 0 t.

(** The key an [AUTOINCREMENT] insert gets: one more than the largest rowid
    that is or ever was in the table.  (Exhaustion of the 64-bit rowid space
    is not modelled.) *)
Definition next_rowid (d : database) : Z :=
  Z.max (sqlite_sequence d) (max_rowid (documents d)) + 1.

(** ** Calls, faults and the handler monad *)

(** The calls of a handler that leave the process. *)
Inductive io : Type :=
  | IoOpen | IoWrite | IoUnlink
  | IoInsert | IoSelect | IoSelectAll | IoDelete | IoCommit.

Inductive event : Type :=
  | CallOpen (path : string)
  | CallWrite (path : string) (content : list byte)
  | CallUnlink (path : string)
  | CallInsert (r : document_row)
  | CallSelect (id : Z)
  | CallSelectAll
  | CallDelete (id : Z)
  | RowsAffected (n : Z)
  | CallCommit.

(** What a handler cannot decide itself: the clock, the random source, which
    outside calls raise, and what other requests do to the shared stores
    while this one is suspended at an awaited call.  (A hook that writes the
    table while this connection has an uncommitted write is excluded by
    SQLite's locking.) *)
Record env : Type := mkEnv {
  time_time : Z;
  random_draw : nat;
  now_isoformat : string;
  raises : io → bool;
  others : io → store → store
}.

(** [random.randint(a, b)]. *)
Definition randint (e : env) (a b : Z) : Z :=
  a + Z.of_nat (random_draw e) mod (b - a + 1).

(** The state of one request: the shared stores, the uncommitted view of its
    database connection (if it has written), the local [file_path] (if
    assigned), and the calls made so far. *)
Record state : Type := mkState {
  shared : store;
  txn : option database;
  local_file_path : option string;
  log : list event
}.

Definition M (A : Type) : Type := env → state → (exn + A) * state.

Definition ret {A} (a : A) : M A := λ _ st, (inr a, st).

Definition bind {A B} (m : M A) (k : A → M B) : M B :=
  λ e st, match m e st with
          | (inl x, st') => (inl x, st')
          | (inr a, st') => k a e st'
          end.

Definition raise {A} (x : exn) : M A := λ _ st, (inl x, st).

Definition liftE {A} (r : exn + A) : M A := λ _ st, (r, st).

Declare Scope handler_scope.
Delimit Scope handler_scope with handler.
Notation "x ← y ; z" := (bind y (λ x : _, z))
  (at level 20, y at level 100, z at level 200, only parsing) : handler_scope.
Notation "' x ← y ; z" := (bind y (λ x : _, z))
  (at level 20, x pattern, y at level 100, z at level 200, only parsing) : handler_scope.
Notation "x ;; z" := (bind x (λ _, z))
  (at level 100, z at level 200, only parsing, right associativity) : handler_scope.
Local Open Scope handler_scope.

(** [try: body / except Exception: handler].  An exception raised by the
    handler itself propagates. *)
Definition try_catch {A} (body : M A) (handler : exn → M A) : M A :=
  λ e st, match body e st with
          | (inl x, st') => handler x e st'
          | ok => ok
          end.

(** [try: body / except HTTPException: raise / except Exception: handler]. *)
Definition try_except {A} (body : M A) (handler : exn → M A) : M A :=
  try_catch body (λ x, if is_HTTPException x then raise x else handler x).

Definition ask : M env := λ e st, (inr e, st).
Definition get : M state := λ _ st, (inr st, st).

Definition emit (ev : event) : M unit :=
  λ _ st, (inr tt, mkState (shared st) (txn st) (local_file_path st) (log st ++ [ev])).

(** Suspension at an awaited call: other requests run. *)
Definition await (p : io) : M unit :=
  λ e st, (inr tt, mkState (others e p (shared st)) (txn st) (local_file_path st) (log st)).

(** The call raises if the environment says so. *)
Definition may_raise (p : io) (x : exn) : M unit :=
  λ e st, if raises e p then (inl x, st) else (inr tt, st).

Definition set_disk (f : gmap string (list byte) → gmap string (list byte)) : M unit :=
  λ _ st, (inr tt, mkState (mkStore (f (disk (shared st))) (index (shared st)))
                           (txn st) (local_file_path st) (log st)).

Definition set_txn (d : option database) : M unit :=
  λ _ st, (inr tt, mkState (shared st) d (local_file_path st) (log st)).

Definition set_index (d : database) : M unit :=
  λ _ st, (inr tt, mkState (mkStore (disk (shared st)) d)
                           (txn st) (local_file_path st) (log st)).

Definition assign_file_path (p : string) : M unit :=
  λ _ st, (inr tt, mkState (shared st) (txn st) (Some p) (log st)).

(** What the connection sees: its own uncommitted writes over the committed
    table. *)
Definition view (st : state) : database := default (index (shared st)) (txn st).

(** *** Filesystem calls *)

(** [aiofiles.open(path, 'wb')]: creates the file, or truncates the one that
    is there. *)
Definition aiofiles_open_wb (path : string) : M unit :=
  await IoOpen;;
  emit (CallOpen path);;
  may_raise IoOpen OSError;;
  set_disk (λ d, <[path := []]> d).

(** [f.write(content)] on the handle opened for [path], and the close that
    ends the [async with] block.  A failed write leaves the file as [open]
    made it. *)
Definition aiofiles_write (path : string) (content : list byte) : M unit :=
  await IoWrite;;
  emit (CallWrite path content);;
  may_raise IoWrite OSError;;
  set_disk (λ d, <[path := content]> d).

(** [path.exists()].  It answers from the directory alone; the [OSError]s
    that [Path.exists] re-raises (a name that is too long, for one) are not
    modelled. *)
Definition path_exists (path : string) : M bool :=
  st ← get; ret (bool_decide (is_Some (disk (shared st) !! path))).

(** [path.unlink()]. *)
Definition path_unlink (path : string) : M unit :=
  emit (CallUnlink path);;
  may_raise IoUnlink OSError;;
  st ← get;
  match disk (shared st) !! path with
  | None => raise OSError
  | Some _ => set_disk (λ d, delete path d)
  end.

(** *** Database calls *)

(** [INSERT INTO documents (...) VALUES (...)]; the result is
    [cursor.lastrowid]. *)
Definition execute_insert (r : document_row) : M Z :=
  await IoInsert;;
  emit (CallInsert r);;
  may_raise IoInsert DatabaseError;;
  st ← get;
  let d := view st in
  let id := next_rowid d in
  set_txn (Some (mkDatabase (<[id := r]> (documents d)) id));;
  ret id.

(** [SELECT * FROM documents WHERE id = ?] followed by [fetchone()].  The
    parameter is taken to be one that SQLite can bind: the [OverflowError]
    that [sqlite3] raises for a Python [int] outside the signed 64-bit range
    is not modelled, and what is stated about ids that are not in the index
    is stated for ids that satisfy [fits_int64]. *)
Definition execute_select (id : Z) : M (option document_row) :=
  await IoSelect;;
  emit (CallSelect id);;
  may_raise IoSelect DatabaseError;;
  st ← get;
  ret (documents (view st) !! id).

(** [DELETE FROM documents WHERE id = ?]; the result is [cursor.rowcount]. *)
Definition execute_delete (id : Z) : M Z :=
  await IoDelete;;
  emit (CallDelete id);;
  may_raise IoDelete DatabaseError;;
  st ← get;
  let d := view st in
  let rowcount := if documents d !! id is Some _ then 1 else 0 in
  set_txn (Some (mkDatabase (delete id (documents d)) (sqlite_sequence d)));;
  emit (RowsAffected rowcount);;
  ret rowcount.

(** [db.commit()]. *)
Definition commit : M unit :=
  await IoCommit;;
  emit CallCommit;;
  may_raise IoCommit DatabaseError;;
  st ← get;
  match txn st with
  | None => ret tt
  | Some d => set_index d;; set_txn None
  end.

(** ** The handlers *)

(** [generate_unique_filename]. *)
Definition generate_unique_filename (original_filename : string) : M string :=
  e ← ask;
  let timestamp := time_time e in
  let random_suffix := randint e 1000 9999 in
  let '(name, ext) := splitext original_filename in
  ret (pretty timestamp ++ "-" ++ pretty random_suffix ++ "-" ++ name ++ ext).

(** The [document] object of an upload response and the entries of a
    listing. *)
Record document_info : Type := mkInfo {
  info_id : Z;
  info_filename : string;
  info_filesize : Z;
  info_created_at : string
}.

(** [upload_document]. *)
Definition upload_document (document : UploadFile) : M document_info :=
  try_except
    (let '(valid, document) := validate_pdf_file document in
     if negb valid then raise (HTTPException 400 "Only PDF files are allowed")
     else
       f ← liftE (seek 0 2 (file document));
       file_size ← liftE (tell f);
       f ← liftE (seek 0 0 f);
       if (MAX_FILE_SIZE <? file_size)%Z
       then raise (HTTPException 400 "File size exceeds 10MB limit")
       else if (file_size =? 0)%Z
       then raise (HTTPException 400 "Empty file not allowed")
       else
         unique_filename ← generate_unique_filename (filename document);
         let file_path := path_join UPLOAD_DIR unique_filename in
         assign_file_path file_path;;
         aiofiles_open_wb file_path;;
         '(content, f) ← liftE (read_all f);
         aiofiles_write file_path content;;
         e ← ask;
         let created := now_isoformat e in
         lastrowid ← execute_insert
           (mkRow unique_filename (filename document) file_path file_size created);
         commit;;
         doc_row ← execute_select lastrowid;
         match doc_row with
         | None => raise (HTTPException 500 "Failed to retrieve uploaded document")
         | Some r =>
             ret (mkInfo lastrowid (original_name r) (filesize r) (created_at r))
         end)
    (λ _,
       st ← get;
       match local_file_path st return M unit with
       | Some file_path =>
           present ← path_exists file_path;
           if present then path_unlink file_path else ret tt
       | None => ret tt
       end;;
       raise (HTTPException 500 "Internal server error during upload")).

(** [ORDER BY created_at DESC]: the text values are compared bytewise.  SQL
    leaves the order of equal timestamps open; here the smaller [id] comes
    first. *)
Definition newer_first (a b : Z * document_row) : bool :=
  match String.compare (created_at a.2) (created_at b.2) with
  | Gt => true
  | Eq => (a.1 <=? b.1)%Z
  | Lt => false
  end.

(** [SELECT id, original_name as filename, filesize, created_at FROM documents
    ORDER BY created_at DESC] followed by [fetchall()]. *)
Definition execute_select_all : M (list (Z * document_row)) :=
  await IoSelectAll;;
  emit CallSelectAll;;
  may_raise IoSelectAll DatabaseError;;
  st ← get;
  ret (merge_sort (λ a b, Is_true (newer_first a b))
         (map_to_list (documents (view st)))).

(** [get_documents]. *)
Definition get_documents : M (list document_info) :=
  try_catch
    (rows ← execute_select_all;
     ret (map (λ row : Z * document_row,
                 mkInfo row.1 (original_name row.2) (filesize row.2) (created_at row.2))
              rows))
    (λ _, raise (HTTPException 500 "Internal server error")).

(** A [FileResponse]: the file to send, the media type and the suggested
    file name. *)
Record FileResponse : Type := mkFileResponse {
  path : string;
  media_type : string;
  response_filename : string
}.

(** [download_document]. *)
Definition download_document (document_id : Z) : M FileResponse :=
  try_except
    (doc_row ← execute_select document_id;
     match doc_row with
     | None => raise (HTTPException 404 "Document not found")
     | Some r =>
         let file_path := filepath r in
         present ← path_exists file_path;
         if negb present then raise (HTTPException 404 "File not found on disk")
         else ret (mkFileResponse file_path "application/pdf" (original_name r))
     end)
    (λ _, raise (HTTPException 500 "Internal server error during download")).

(** [delete_document]. *)
Definition delete_document (document_id : Z) : M unit :=
  try_except
    (doc_row ← execute_select document_id;
     match doc_row with
     | None => raise (HTTPException 404 "Document not found")
     | Some r =>
         let file_path := filepath r in
         present ← path_exists file_path;
         (if present then path_unlink file_path else ret tt);;
         rowcount ← execute_delete document_id;
         commit;;
         if (rowcount =? 0)%Z then raise (HTTPException 404 "Document not found")
         else ret tt
     end)
    (λ _, raise (HTTPException 500 "Internal server error during deletion")).

(** ** Serving requests *)

(** One request: [get_database] opens a connection, the handler runs, and the
    [finally] closes the connection, which discards what was not committed.
    The result is the handler's outcome, the shared stores it leaves and the
    calls it made. *)
Definition serve {A} (handler : M A) (e : env) (s : store)
  : (exn + A) * store * list event :=
  let '(r, st) := handler e (mkState s None None []) in
  (r, shared st, log st).

Definition outcome {A} (x : (exn + A) * store * list event) : exn + A := x.1.1.
Definition after {A} (x : (exn + A) * store * list event) : store := x.1.2.
Definition calls {A} (x : (exn + A) * store * list event) : list event := x.2.

(** The status code of the response: an [HTTPException] carries its own, any
    other exception that leaves the handler becomes a 500. *)
Definition status_code_of {A} (r : exn + A) : Z :=
  match r with
  | inr _ => 200
  | inl (HTTPException c _) => c
  | inl _ => 500
  end.

(** The bytes a [FileResponse] sends: the file at its path. *)
Definition body (resp : FileResponse) (s : store) : option (list byte) :=
  disk s !! path resp.

(** Environments.  [sequential] has no other request running; [reliable]
    also has no failing call. *)
Definition sequential (t : Z) (rnd : nat) (iso : string) (faults : io → bool) : env :=
  mkEnv t rnd iso faults (λ _ s, s).

Definition reliable (t : Z) (rnd : nat) (iso : string) : env :=
  sequential t rnd iso (λ _, false).

(** Requests that change the stores, and a run of them, each under its own
    environment. *)
Inductive request : Type :=
  | Upload (document : UploadFile)
  | Delete (document_id : Z).

Definition handle (e : env) (rq : request) (s : store) : store :=
  match rq with
  | Upload document => after (serve (upload_document document) e s)
  | Delete document_id => after (serve (delete_document document_id) e s)
  end.

Fixpoint run (rqs : list (env * request)) (s : store) : store :=
  match rqs with
  | [] => s
  | (e, rq) :: rqs' => run rqs' (handle e rq s)
  end.

(** The consistency invariant: every row of the index has a file at its
    [filepath]. *)
Definition no_orphan_rows (s : store) : Prop :=
  ∀ id r, documents (index s) !! id = Some r → is_Some (disk s !! filepath r).

(** The integers that SQLite can bind as a parameter: the signed 64-bit
    range. *)
Definition fits_int64 (z : Z) : Prop := (- 2 ^ 63 <= z < 2 ^ 63)%Z.

(** What the validator is meant to decide, stated on the name and on the
    content themselves. *)
Definition is_pdf_name (name : string) : Prop :=
  ∃ stem p d f,
    name = stem ++ String "." (String p (String d (String f EmptyString)))
    ∧ (p = "p" ∨ p = "P")%char ∧ (d = "d" ∨ d = "D")%char ∧ (f = "f" ∨ f = "F")%char.

Definition has_pdf_signature (content : list byte) : Prop :=
  ∃ rest, content = (PDF_MAGIC ++ rest)%list.

(** The name, the path and the index row that an upload of [content] under
    the client's name [original] gets in environment [e]. *)
Definition unique_filename_of (e : env) (original : string) : string :=
  pretty (time_time e) ++ "-" ++ pretty (randint e 1000 9999) ++ "-"
    ++ (splitext original).1 ++ (splitext original).2.

Definition storage_path (e : env) (original : string) : string :=
  path_join UPLOAD_DIR (unique_filename_of e original).

Definition row_of (e : env) (original : string) (content : list byte) : document_row :=
  mkRow (unique_filename_of e original) original (storage_path e original)
        (Z.of_nat (length content)) (now_isoformat e).

(** No two rows of the index share a [filepath]. *)
Definition distinct_paths (s : store) : Prop :=
  ∀ id1 id2 r1 r2,
    documents (index s) !! id1 = Some r1 → documents (index s) !! id2 = Some r2 →
    filepath r1 = filepath r2 → id1 = id2.

Definition consistent (s : store) : Prop := no_orphan_rows s ∧ distinct_paths s.

(** The path an upload generates is not the [filepath] of any row. *)
Definition key_unused (e : env) (document : UploadFile) (s : store) : Prop :=
  ∀ id r, documents (index s) !! id = Some r →
          filepath r ≠ storage_path e (filename document).

(** A request served on its own (no other request runs meanwhile), with a
    fresh storage key if it is an upload, and without a failure of the
    calls that follow the point of no return of its handler: the re-read
    after the commit of an upload, the DELETE and its commit after the
    unlink of a deletion. *)
Definition regular (e : env) (rq : request) (s : store) : Prop :=
  (∃ t rnd iso faults, e = sequential t rnd iso faults)
  ∧ match rq with
    | Upload document => raises e IoSelect = false ∧ key_unused e document s
    | Delete _ => raises e IoDelete = false ∧ raises e IoCommit = false
    end.

Fixpoint regular_run (rqs : list (env * request)) (s : store) : Prop :=
  match rqs with
  | [] => True
  | (e, rq) :: rqs' => regular e rq s ∧ regular_run rqs' (handle e rq s)
  end.

(** Sample data for the examples: two different PDF files under one name,
    and two environments in which nothing fails, within the same second and
    with the same random draw. *)
Definition sample_pdf : UploadFile :=
  mkUploadFile "Report.PDF" (Stream (PDF_MAGIC ++ [x2d; x31]%byte) 0 false).

Definition other_pdf : UploadFile :=
  mkUploadFile "Report.PDF" (Stream (PDF_MAGIC ++ [x2d; x32; x0a]%byte) 0 false).

Definition sample_env : env := reliable 1700000000 4242 "2023-11-14T22:13:20.125000".

Definition later_env : env := reliable 1700000000 4242 "2023-11-14T22:13:20.875000".

(** A PDF file of exactly [MAX_FILE_SIZE] bytes. *)
Definition boundary_pdf : UploadFile :=
  mkUploadFile "scan.pdf"
    (Stream (PDF_MAGIC ++ replicate (Z.to_nat (MAX_FILE_SIZE - 4)) x00) 0 false).

(** An environment in which another request deletes document 1 while this
    one is suspended at its DELETE. *)
Definition racing_env : env :=
  mkEnv 1700000002 4242 "2023-11-14T22:13:22.500000" (λ _, false)
    (λ p s, match p with
            | IoDelete =>
                mkStore (disk s)
                  (mkDatabase (delete 1 (documents (index s)))
                              (sqlite_sequence (index s)))
            | _ => s
            end).

(** ** Notions for the further properties *)

(** An entry of a listing, as [get_documents] builds it from a row. *)
Definition info_of (row : Z * document_row) : document_info :=
  mkInfo row.1 (original_name row.2) (filesize row.2) (created_at row.2).

(** The order of a listing: the first entry is not older than the second. *)
Definition not_older (a b : document_info) : Prop :=
  String.compare (info_created_at a) (info_created_at b) ≠ Lt.

Definition is_digit (c : ascii) : bool :=
  let n := N_of_ascii c in ((48 <=? n) && (n <=? 57))%N.

Fixpoint all_digits (s : string) : bool :=
  match s with
  | EmptyString => true
  | String c s' => is_digit c && all_digits s'
  end.

(** A request served with no other request running meanwhile. *)
Definition served_alone (e : env) : Prop :=
  ∃ t rnd iso faults, e = sequential t rnd iso faults.

(** Every document of the index is a validated PDF of admissible size whose
    row describes the blob on disk. *)
Definition stored_valid (s : store) : Prop :=
  ∀ id r, documents (index s) !! id = Some r →
    ∃ blob, disk s !! filepath r = Some blob
      ∧ filesize r = Z.of_nat (length blob)
      ∧ (0 < filesize r <= MAX_FILE_SIZE)%Z
      ∧ has_pdf_signature blob
      ∧ is_pdf_name (original_name r)
      ∧ filepath r = path_join UPLOAD_DIR (row_filename r).

(** More sample data: an environment one second after [sample_env], and
    the stores after the sample file has been uploaded. *)
Definition next_env : env := reliable 1700000001 977 "2023-11-14T22:13:21.250000".

Definition one_document : store := handle sample_env (Upload sample_pdf) empty_store.

Definition two_documents : store := handle next_env (Upload other_pdf) one_document.

(** * Properties *)

(** ** Strings and bytes *)

Section Strings.

Lemma append_nil (b : string) : EmptyString ++ b = b.
Proof. reflexivity. Qed.

Lemma append_cons (c : ascii) (a b : string) : String c a ++ b = String c (a ++ b).
Proof. reflexivity. Qed.

Lemma append_empty_r (a : string) : a ++ EmptyString = a.
Proof. induction a as [|c a IH]; [done |]. by rewrite append_cons, IH. Qed.

Lemma length_append (a b : string) :
  String.length (a ++ b) = (String.length a + String.length b)%nat.
Proof.
  induction a as [|c a IH]; [done |]. rewrite append_cons. simpl. by rewrite IH.
Qed.

Lemma substring_all (s : string) : substring 0 (String.length s) s = s.
Proof. induction s as [|c s IH]; simpl; [done | by rewrite IH]. Qed.

Lemma substring_skip (a b : string) (k : nat) :
  substring (String.length a) k (a ++ b) = substring 0 k b.
Proof. induction a as [|c a IH]; [done |]. rewrite append_cons. apply IH. Qed.

Lemma substring_split (s : string) (m k : nat) :
  (m + k)%nat = String.length s →
  s = substring 0 m s ++ substring m k s.
Proof.
  revert m; induction s as [|c s IH]; intros m Hlen.
  - destruct m, k; simpl in *; done.
  - destruct m as [|m]; simpl in *.
    + destruct k as [|k]; [done |]. rewrite append_nil. f_equal.
      injection Hlen as ->. by rewrite substring_all.
    + rewrite append_cons. f_equal. apply IH. lia.
Qed.

Lemma endswith_iff (s suffix : string) :
  endswith s suffix = true ↔ ∃ stem, s = stem ++ suffix.
Proof.
  unfold endswith. split.
  - destruct (Nat.leb_spec (String.length suffix) (String.length s)) as [Hle|]; [|done].
    intros Heq%String.eqb_eq.
    pose proof (substring_split s (String.length s - String.length suffix)
                  (String.length suffix)) as Hs.
    rewrite Heq in Hs. eexists. apply Hs. lia.
  - intros [stem ->]. rewrite length_append.
    destruct (Nat.leb_spec (String.length suffix)
                (String.length stem + String.length suffix)) as [_|]; [|lia].
    replace (String.length stem + String.length suffix - String.length suffix)%nat
      with (String.length stem) by lia.
    rewrite substring_skip, substring_all. apply String.eqb_refl.
Qed.

Lemma lower_append (a b : string) : lower (a ++ b) = lower a ++ lower b.
Proof.
  induction a as [|c a IH]; [done |].
  rewrite append_cons. simpl. by rewrite append_cons, IH.
Qed.

Lemma lower_append_inv (s a b : string) :
  lower s = a ++ b → ∃ a' b', s = a' ++ b' ∧ lower a' = a ∧ lower b' = b.
Proof.
  revert s; induction a as [|c a IH]; intros s H.
  - by exists EmptyString, s.
  - destruct s as [|c' s]; [done |]. rewrite append_cons in H. simpl in H.
    injection H as Hc Hs.
    destruct (IH _ Hs) as (a' & b' & -> & <- & <-).
    exists (String c' a'), b'. simpl. by rewrite Hc.
Qed.

Lemma lower_ascii_inv (c l : ascii) :
  lower_ascii c = l → c = l ∨ N_of_ascii c = (N_of_ascii l - 32)%N.
Proof.
  unfold lower_ascii. intros H.
  destruct ((65 <=? N_of_ascii c)%N && (N_of_ascii c <=? 90)%N) eqn:Hup; [|by left].
  right. apply (f_equal N_of_ascii) in H. rewrite N_ascii_embedding in H.
  - lia.
  - apply andb_true_iff in Hup as [_ ?%N.leb_le]. lia.
Qed.

Lemma ascii_of_code (c : ascii) (n : N) : N_of_ascii c = n → c = ascii_of_N n.
Proof. intros <-. by rewrite ascii_N_embedding. Qed.

Lemma lower_is_dot (c : ascii) : lower_ascii c = "."%char → c = "."%char.
Proof.
  intros H. destruct (lower_ascii_inv _ _ H) as [?|E]; [done |].
  apply ascii_of_code in E. subst c. vm_compute in H. discriminate.
Qed.

Lemma lower_is_p (c : ascii) : lower_ascii c = "p"%char → (c = "p" ∨ c = "P")%char.
Proof.
  intros [?|E]%lower_ascii_inv; [by left | right]. by apply ascii_of_code in E.
Qed.

Lemma lower_is_d (c : ascii) : lower_ascii c = "d"%char → (c = "d" ∨ c = "D")%char.
Proof.
  intros [?|E]%lower_ascii_inv; [by left | right]. by apply ascii_of_code in E.
Qed.

Lemma lower_is_f (c : ascii) : lower_ascii c = "f"%char → (c = "f" ∨ c = "F")%char.
Proof.
  intros [?|E]%lower_ascii_inv; [by left | right]. by apply ascii_of_code in E.
Qed.

(** The extension test of the validator decides [is_pdf_name]. *)
Lemma extension_check (name : string) :
  endswith (lower name) ".pdf" = true ↔ is_pdf_name name.
Proof.
  rewrite endswith_iff. split.
  - intros [stem H]. apply lower_append_inv in H as (a & b & -> & _ & Hb).
    destruct b as [|c0 [|c1 [|c2 [|c3 [|? ?]]]]]; simpl in Hb; try discriminate.
    injection Hb as H0 H1 H2 H3.
    apply lower_is_dot in H0 as ->.
    exists a, c1, c2, c3. auto using lower_is_p, lower_is_d, lower_is_f.
  - intros (stem & p & d & f & -> & Hp & Hd & Hf).
    exists (lower stem). rewrite lower_append. f_equal.
    destruct Hp as [-> | ->], Hd as [-> | ->], Hf as [-> | ->]; reflexivity.
Qed.

Lemma startswith_iff (b prefix : list byte) :
  startswith b prefix = true ↔ ∃ rest, b = (prefix ++ rest)%list.
Proof.
  revert b; induction prefix as [|p prefix IH]; intros b; simpl.
  - split; eauto.
  - destruct b as [|x b].
    + split; [done | by intros [? ?]].
    + rewrite andb_true_iff, IH. split.
      * intros [->%Byte.byte_dec_bl [rest ->]]. by exists rest.
      * intros [rest [= -> ->]]. split; [by apply Byte.byte_dec_lb | by exists rest].
Qed.

(** Looking at the first 1024 bytes is enough to see the signature. *)
Lemma signature_check (content : list byte) :
  startswith (take 1024 content) PDF_MAGIC = true ↔ has_pdf_signature content.
Proof.
  unfold has_pdf_signature. rewrite startswith_iff. split.
  - intros [rest H]. exists (rest ++ drop 1024 content)%list.
    by rewrite app_assoc, <- H, take_drop.
  - intros [rest ->]. exists (take 1020 rest). reflexivity.
Qed.

End Strings.

(** ** The content validator *)

Section Validator.

Variables (name : string) (content : list byte).

(** On an open file object the verdict and the file object left behind, in
    closed form: the read position ends at 0 once the extension test has
    passed. *)
Lemma validate_pdf_file_open (p : nat) :
  validate_pdf_file (mkUploadFile name (Stream content p false)) =
  if endswith (lower name) ".pdf"
  then (startswith (take 1024 content) PDF_MAGIC,
        mkUploadFile name (Stream content 0 false))
  else (false, mkUploadFile name (Stream content p false)).
Proof.
  unfold validate_pdf_file, seek, read. cbn [filename file closed data pos].
  destruct (endswith (lower name) ".pdf"); cbn [negb]; [|done].
  change (0 =? 2)%Z with false. cbn [closed data pos].
  change (drop 0 content) with content.
  by destruct (startswith (take 1024 content) PDF_MAGIC).
Qed.

Lemma validate_pdf_file_accepts (p : nat) :
  (validate_pdf_file (mkUploadFile name (Stream content p false))).1 = true
  ↔ is_pdf_name name ∧ has_pdf_signature content.
Proof.
  rewrite validate_pdf_file_open, <- extension_check, <- signature_check.
  destruct (endswith (lower name) ".pdf"); cbn [fst]; intuition congruence.
Qed.

End Validator.

(** A rejected file is answered with a 400 before anything is touched. *)
Lemma upload_rejected_by_validator (document : UploadFile) (e : env) (s : store) :
  (validate_pdf_file document).1 = false →
  serve (upload_document document) e s =
  (inl (HTTPException 400 "Only PDF files are allowed"), s, []).
Proof.
  intros H. unfold serve, upload_document, try_except, try_catch.
  destruct (validate_pdf_file document) as [valid document'].
  cbn [fst] in H. subst valid. by destruct s.
Qed.

(** C5: for every file name and content (on an open file object, at any
    read position), [validate_pdf_file] accepts exactly when the name ends in
    [.pdf] (in any letter case) and the content begins with the four bytes
    [%PDF]; on acceptance the file object is left at read position 0, so that
    reading it afterwards yields the whole content, and a file handed over at
    position 0 is left exactly as it was; a rejected file makes
    [upload_document] answer the client error 400 with nothing touched. *)
Theorem validate_pdf_file_spec (name : string) (content : list byte) (p : nat) :
  let f := mkUploadFile name (Stream content p false) in
  ((validate_pdf_file f).1 = true ↔ is_pdf_name name ∧ has_pdf_signature content)
  ∧ ((validate_pdf_file f).1 = true →
     (validate_pdf_file f).2 = mkUploadFile name (Stream content 0 false)
     ∧ read_all (file (validate_pdf_file f).2)
       = inr (content, Stream content (length content) false))
  ∧ (validate_pdf_file (mkUploadFile name (Stream content 0 false))).2
    = mkUploadFile name (Stream content 0 false)
  ∧ ((validate_pdf_file f).1 = false →
     ∀ e s, serve (upload_document f) e s
            = (inl (HTTPException 400 "Only PDF files are allowed"), s, [])).
Proof.
  intros f. split; [apply validate_pdf_file_accepts |].
  split; [| split].
  - subst f. rewrite validate_pdf_file_open.
    destruct (endswith (lower name) ".pdf"); cbn [fst snd]; [|done].
    intros _. split; [done |]. reflexivity.
  - rewrite validate_pdf_file_open. by destruct (endswith (lower name) ".pdf").
  - intros H e s. by apply upload_rejected_by_validator.
Qed.

(** ** Names and row ids *)

Lemma rfind_from_bound (c : ascii) (s : string) (i last : Z) :
  (rfind_from c s i last <= Z.max last (i + Z.of_nat (String.length s) - 1))%Z.
Proof.
  revert i last; induction s as [|a s IH]; intros i last; cbn [rfind_from String.length].
  - lia.
  - specialize (IH (i + 1)%Z (if Ascii.eqb a c then i else last)).
    destruct (Ascii.eqb a c); lia.
Qed.

(** [splitext] cuts the name in two: the generated name ends with the
    client's name as it came. *)
Lemma splitext_concat (p : string) : (splitext p).1 ++ (splitext p).2 = p.
Proof.
  unfold splitext.
  destruct (rfind "/" p <? rfind "." p)%Z eqn:Hlt; [| apply append_empty_r].
  destruct (has_non_dot _); [| apply append_empty_r]. cbn [fst snd].
  symmetry. apply substring_split.
  pose proof (rfind_from_bound "." p 0 (-1)) as Hdot. unfold rfind in *. lia.
Qed.

Lemma unique_filename_of_original (e : env) (original : string) :
  unique_filename_of e original
  = pretty (time_time e) ++ "-" ++ pretty (randint e 1000 9999) ++ "-" ++ original.
Proof. unfold unique_filename_of. by rewrite splitext_concat. Qed.

Lemma randint_range (e : env) (a b : Z) :
  (a <= b)%Z → (a <= randint e a b <= b)%Z.
Proof.
  intros Hab. unfold randint.
  pose proof (Z.mod_pos_bound (Z.of_nat (random_draw e)) (b - a + 1)). lia.
Qed.

Lemma max_rowid_bound (t : gmap Z document_row) (k : Z) :
  is_Some (t !! k) → (k <= max_rowid t)%Z.
Proof.
  unfold max_rowid. revert k.
  apply (map_fold_weak_ind
           (λ acc (m : gmap Z document_row), ∀ k, is_Some (m !! k) → (k <= acc)%Z)).
  - intros k [? H]. by rewrite lookup_empty in H.
  - intros i x m acc Hfresh IH k [y [[-> _] | [_ Hk]]%lookup_insert_Some]; [lia |].
    specialize (IH k (mk_is_Some _ _ Hk)). lia.
Qed.

(** The id of a new row is not in the table, and it is larger than every id
    handed out before. *)
Lemma next_rowid_fresh (d : database) :
  documents d !! next_rowid d = None ∧ (sqlite_sequence d < next_rowid d)%Z.
Proof.
  unfold next_rowid. split; [| lia].
  apply eq_None_not_Some. intros Hsome%max_rowid_bound. lia.
Qed.

(** ** Uploads *)

Lemma generate_unique_filename_run (original : string) (e : env) (st : state) :
  generate_unique_filename original e st = (inr (unique_filename_of e original), st).
Proof.
  unfold generate_unique_filename, unique_filename_of, bind, ask, ret.
  by destruct (splitext original).
Qed.

#[local] Arguments generate_unique_filename : simpl never.

Ltac unfold_handler :=
  unfold serve, outcome, after, calls,
    upload_document, download_document, delete_document, get_documents,
    try_except, try_catch,
    aiofiles_open_wb, aiofiles_write, path_exists, path_unlink,
    execute_insert, execute_select, execute_delete, execute_select_all, commit,
    await, emit, may_raise, set_disk, set_txn, set_index, assign_file_path,
    view, bind, raise, liftE, ask, get.

(** Symbolic execution of a handler: unfold the monad, compute, and use the
    facts at hand about faults and lookups wherever the computation is
    stuck on them. *)
Ltac crank :=
  repeat first
    [ progress cbn
    | rewrite Nat.add_0_r
    | rewrite drop_0
    | rewrite generate_unique_filename_run
    | rewrite lookup_insert_eq
    | rewrite lookup_delete_eq
    | match goal with
      | H : ?f ?x = _ |- context [?f ?x] => rewrite H
      | H : ?m !! ?k = _ |- context [?m !! ?k] => rewrite H
      end ].

(** Case analysis on whatever the execution is stuck on: a fault, a lookup or
    an existence test. *)
Ltac explore :=
  repeat (crank;
    match goal with
    | |- context [raises ?e ?p] => destruct (raises e p) eqn:?
    | |- context [if ?faults ?p then _ else _] =>
        is_var faults; destruct (faults p) eqn:?
    | |- context [match ?m !! ?k with _ => _ end] => destruct (m !! k) eqn:?
    | |- context [if bool_decide ?P then _ else _] => destruct (bool_decide P) eqn:?
    end);
  crank.

Lemma store_eta (s : store) : mkStore (disk s) (index s) = s.
Proof. by destruct s. Qed.

Section AcceptedUpload.

Variables (name : string) (content : list byte) (p : nat).
Let document := mkUploadFile name (Stream content p false).

Hypothesis accepted : (validate_pdf_file document).1 = true.

Lemma accepted_validate :
  validate_pdf_file document = (true, mkUploadFile name (Stream content 0 false)).
Proof.
  pose proof accepted as H. unfold document in *.
  rewrite validate_pdf_file_open in *.
  destruct (endswith (lower name) ".pdf"); cbn [fst] in H; [|done]. by rewrite H.
Qed.

Lemma accepted_nonempty : (0 < Z.of_nat (length content))%Z.
Proof.
  pose proof accepted as H.
  apply validate_pdf_file_accepts in H as [_ [rest ->]].
  rewrite length_app. simpl. lia.
Qed.

(** The part of [upload_document] up to the size check. *)
Ltac enter :=
  unfold_handler; rewrite accepted_validate; cbn; rewrite Nat.add_0_r;
  destruct (Z.ltb_spec MAX_FILE_SIZE (Z.of_nat (length content))) as [?|_];
    [try lia |
     destruct (Z.eqb_spec (Z.of_nat (length content)) 0) as [?|_];
       [pose proof accepted_nonempty; lia |]].

Lemma upload_too_large (e : env) (s : store) :
  (MAX_FILE_SIZE < Z.of_nat (length content))%Z →
  serve (upload_document document) e s =
  (inl (HTTPException 400 "File size exceeds 10MB limit"), s, []).
Proof.
  intros Hsize. unfold_handler. rewrite accepted_validate. cbn. rewrite Nat.add_0_r.
  destruct (Z.ltb_spec MAX_FILE_SIZE (Z.of_nat (length content))); [|lia].
  reflexivity.
Qed.

(** Within the size limit the upload gets to the write, whatever happens
    afterwards, and whatever it answers is not a 400. *)
Lemma upload_past_size_check (e : env) (s : store) :
  (Z.of_nat (length content) <= MAX_FILE_SIZE)%Z →
  (∃ rest, calls (serve (upload_document document) e s)
           = CallOpen (storage_path e name) :: rest)
  ∧ ∀ detail, outcome (serve (upload_document document) e s)
              ≠ inl (HTTPException 400 detail).
Proof.
  intros Hsize. unfold storage_path. enter. explore.
  all: split; [by eexists | done].
Qed.

Section UploadFaults.

Variables (t : Z) (rnd : nat) (iso : string) (faults : io → bool) (s : store).
Let e := sequential t rnd iso faults.
Let path := storage_path e name.
Let row := row_of e name content.
Let id := next_rowid (index s).

Hypothesis size_ok : (Z.of_nat (length content) <= MAX_FILE_SIZE)%Z.

Lemma upload_ok :
  faults IoOpen = false → faults IoWrite = false → faults IoInsert = false →
  faults IoCommit = false → faults IoSelect = false →
  serve (upload_document document) e s =
  (inr (mkInfo id name (Z.of_nat (length content)) iso),
   mkStore (<[path := content]> (<[path := []]> (disk s)))
           (mkDatabase (<[id := row]> (documents (index s))) id),
   [CallOpen path; CallWrite path content; CallInsert row; CallCommit; CallSelect id]).
Proof. intros H1 H2 H3 H4 H5. enter. crank. reflexivity. Qed.

Let server_fault : exn + document_info :=
  inl (HTTPException 500 "Internal server error during upload").

(** The compensation: what the [except Exception] branch makes of the
    request when it finds the disk as [d], the index as [i] and the calls
    made so far [made]. *)
Let compensate (d : gmap string (list byte)) (i : database) (made : list event)
  : (exn + document_info) * store * list event :=
  if faults IoUnlink
  then (inl OSError, mkStore d i, (made ++ [CallUnlink path])%list)
  else (server_fault, mkStore (delete path d) i, (made ++ [CallUnlink path])%list).

Lemma upload_open_fails :
  faults IoOpen = true →
  serve (upload_document document) e s =
  match disk s !! path with
  | Some _ => compensate (disk s) (index s) [CallOpen path]
  | None => (server_fault, s, [CallOpen path])
  end.
Proof.
  intros H1. unfold compensate. subst path. unfold storage_path. enter. crank.
  destruct (disk s !! _) eqn:Hd; crank; [|done].
  by destruct (faults IoUnlink); crank; rewrite ?store_eta.
Qed.

Lemma upload_write_fails :
  faults IoOpen = false → faults IoWrite = true →
  serve (upload_document document) e s =
  compensate (<[path := []]> (disk s)) (index s)
    [CallOpen path; CallWrite path content].
Proof.
  intros H1 H2. unfold compensate. subst path. unfold storage_path. enter. crank.
  by destruct (faults IoUnlink); crank.
Qed.

Lemma upload_insert_fails :
  faults IoOpen = false → faults IoWrite = false → faults IoInsert = true →
  serve (upload_document document) e s =
  compensate (<[path := content]> (<[path := []]> (disk s))) (index s)
    [CallOpen path; CallWrite path content; CallInsert row].
Proof.
  intros H1 H2 H3. unfold compensate. subst path. unfold storage_path. enter. crank.
  by destruct (faults IoUnlink); crank.
Qed.

Lemma upload_commit_fails :
  faults IoOpen = false → faults IoWrite = false → faults IoInsert = false →
  faults IoCommit = true →
  serve (upload_document document) e s =
  compensate (<[path := content]> (<[path := []]> (disk s))) (index s)
    [CallOpen path; CallWrite path content; CallInsert row; CallCommit].
Proof.
  intros H1 H2 H3 H4. unfold compensate. subst path. unfold storage_path. enter. crank.
  by destruct (faults IoUnlink); crank.
Qed.

(** When the re-read of the committed row raises, the same compensation
    runs although the row is already in the index. *)
Lemma upload_reread_fails :
  faults IoOpen = false → faults IoWrite = false → faults IoInsert = false →
  faults IoCommit = false → faults IoSelect = true →
  serve (upload_document document) e s =
  compensate (<[path := content]> (<[path := []]> (disk s)))
    (mkDatabase (<[id := row]> (documents (index s))) id)
    [CallOpen path; CallWrite path content; CallInsert row; CallCommit;
     CallSelect id].
Proof.
  intros H1 H2 H3 H4 H5. unfold compensate. subst path. unfold storage_path. enter. crank.
  by destruct (faults IoUnlink); crank.
Qed.

End UploadFaults.

End AcceptedUpload.

(** ** Downloads and deletions *)

Section ReadAndDelete.

Variables (t : Z) (rnd : nat) (iso : string) (faults : io → bool) (s : store).
Variable document_id : Z.
Let e := sequential t rnd iso faults.

Hypothesis select_works : faults IoSelect = false.

Lemma download_unknown :
  documents (index s) !! document_id = None →
  serve (download_document document_id) e s =
  (inl (HTTPException 404 "Document not found"), s, [CallSelect document_id]).
Proof. intros Hrow. unfold_handler. by crank. Qed.

Lemma download_missing_blob (r : document_row) :
  documents (index s) !! document_id = Some r →
  disk s !! filepath r = None →
  serve (download_document document_id) e s =
  (inl (HTTPException 404 "File not found on disk"), s, [CallSelect document_id]).
Proof. intros Hrow Hblob. unfold_handler. by crank. Qed.

Lemma download_ok (r : document_row) (blob : list byte) :
  documents (index s) !! document_id = Some r →
  disk s !! filepath r = Some blob →
  serve (download_document document_id) e s =
  (inr (mkFileResponse (filepath r) "application/pdf" (original_name r)), s,
   [CallSelect document_id]).
Proof. intros Hrow Hblob. unfold_handler. by crank. Qed.

Lemma delete_unknown :
  documents (index s) !! document_id = None →
  serve (delete_document document_id) e s =
  (inl (HTTPException 404 "Document not found"), s, [CallSelect document_id]).
Proof. intros Hrow. unfold_handler. by crank. Qed.

(** A deletion that goes through: the blob is unlinked (if it is there),
    then the row is deleted and the deletion committed. *)
Lemma delete_ok (r : document_row) :
  documents (index s) !! document_id = Some r →
  faults IoUnlink = false → faults IoDelete = false → faults IoCommit = false →
  serve (delete_document document_id) e s =
  (inr tt,
   mkStore (delete (filepath r) (disk s))
           (mkDatabase (delete document_id (documents (index s)))
                       (sqlite_sequence (index s))),
   CallSelect document_id
     :: (if disk s !! filepath r is Some _ then [CallUnlink (filepath r)] else [])
     ++ [CallDelete document_id; RowsAffected 1; CallCommit]).
Proof.
  intros Hrow H1 H2 H3. unfold_handler. crank.
  destruct (disk s !! filepath r) eqn:Hblob; crank; [done |].
  by rewrite (delete_id (disk s) (filepath r) Hblob).
Qed.

End ReadAndDelete.

(** C9: when the index row of [id] exists but there is no file at its
    [filepath], [download_document] answers 404 (detail "File not found on
    disk"), the same status as for an id (in the range that SQLite can bind)
    that is not in the index, and never a 500; nothing is changed. *)
Theorem download_missing_blob_not_found
    (t : Z) (rnd : nat) (iso : string) (faults : io → bool)
    (s : store) (id : Z) (r : document_row) :
  faults IoSelect = false →
  documents (index s) !! id = Some r →
  disk s !! filepath r = None →
  let e := sequential t rnd iso faults in
  let resp := serve (download_document id) e s in
  outcome resp = inl (HTTPException 404 "File not found on disk")
  ∧ status_code_of (outcome resp) = 404
  ∧ after resp = s
  ∧ ∀ unknown, fits_int64 unknown → documents (index s) !! unknown = None →
      status_code_of (outcome (serve (download_document unknown) e s)) = 404.
Proof.
  intros Hsel Hrow Hblob e resp. subst resp e.
  rewrite (download_missing_blob _ _ _ _ _ _ Hsel r Hrow Hblob).
  repeat split. intros unknown _ Hnone.
  by rewrite (download_unknown _ _ _ _ _ _ Hsel Hnone).
Qed.

(** What [delete_document] makes of a DELETE that found no row, whatever
    other requests did in between. *)
Lemma delete_zero_rows (e : env) (s : store) (id : Z) :
  raises e IoCommit = false →
  RowsAffected 0 ∈ calls (serve (delete_document id) e s) →
  outcome (serve (delete_document id) e s)
  = inl (HTTPException 404 "Document not found").
Proof.
  intros Hcommit. unfold_handler. explore; try done.
  all: intros Hin; repeat (apply elem_of_cons in Hin as [Hin|Hin]; [discriminate |]).
  all: by apply elem_of_nil in Hin.
Qed.

(** C8: for an id that is in the index, a first [delete_document] succeeds:
    it unlinks the blob (when it is there) before it deletes and commits the
    row, and leaves neither; a second one answers 404 "Document not found",
    not a 500.  A deletion whose DELETE statement affected no row (another
    request removed it meanwhile) answers the same 404. *)
Theorem delete_twice
    (t1 t2 : Z) (rnd1 rnd2 : nat) (iso1 iso2 : string)
    (s : store) (id : Z) (r : document_row) :
  documents (index s) !! id = Some r →
  let first := serve (delete_document id) (reliable t1 rnd1 iso1) s in
  let second := serve (delete_document id) (reliable t2 rnd2 iso2) (after first) in
  outcome first = inr tt
  ∧ calls first
    = CallSelect id
        :: (if disk s !! filepath r is Some _ then [CallUnlink (filepath r)] else [])
        ++ [CallDelete id; RowsAffected 1; CallCommit]
  ∧ disk (after first) !! filepath r = None
  ∧ documents (index (after first)) !! id = None
  ∧ outcome second = inl (HTTPException 404 "Document not found")
  ∧ status_code_of (outcome second) = 404
  ∧ after second = after first
  ∧ ∀ e' s', raises e' IoCommit = false →
      RowsAffected 0 ∈ calls (serve (delete_document id) e' s') →
      outcome (serve (delete_document id) e' s')
      = inl (HTTPException 404 "Document not found").
Proof.
  intros Hrow first second. subst second first. unfold reliable.
  rewrite (delete_ok _ _ _ (λ _, false) s id eq_refl r Hrow eq_refl eq_refl eq_refl).
  unfold outcome, after, calls. cbn [fst snd].
  rewrite delete_unknown; [| done | apply lookup_delete_eq].
  cbn [fst snd disk index documents].
  rewrite !lookup_delete_eq. repeat split.
  intros e' s'. apply delete_zero_rows.
Qed.

(** ** The ingestion protocol *)

(** Only an open file object is accepted. *)
Lemma accepted_is_open (document : UploadFile) :
  (validate_pdf_file document).1 = true →
  document = mkUploadFile (filename document)
               (Stream (data (file document)) (pos (file document)) false).
Proof.
  destruct document as [name [content p c]]. destruct c; [|done].
  unfold validate_pdf_file, seek. cbn.
  by destruct (endswith (lower name) ".pdf").
Qed.

(** The listing depends on the index only. *)
Lemma get_documents_index
    (t : Z) (rnd : nat) (iso : string) (faults : io → bool) (s1 s2 : store) :
  index s1 = index s2 →
  outcome (serve get_documents (sequential t rnd iso faults) s1)
  = outcome (serve get_documents (sequential t rnd iso faults) s2).
Proof.
  intros Hidx. unfold_handler. cbn.
  destruct (faults IoSelectAll); cbn; [done | by rewrite Hidx].
Qed.

(** C3: when the write of the blob fails (the [open] or the [write] raises),
    [upload_document] answers a server fault, has made no INSERT call, and
    leaves the index as it was. *)
Theorem upload_write_failure_no_insert
    (name : string) (content : list byte) (p : nat)
    (t : Z) (rnd : nat) (iso : string) (faults : io → bool) (s : store) :
  let document := mkUploadFile name (Stream content p false) in
  (validate_pdf_file document).1 = true →
  (Z.of_nat (length content) <= MAX_FILE_SIZE)%Z →
  faults IoOpen = true ∨ (faults IoOpen = false ∧ faults IoWrite = true) →
  let resp := serve (upload_document document) (sequential t rnd iso faults) s in
  status_code_of (outcome resp) = 500
  ∧ (∀ row, CallInsert row ∉ calls resp)
  ∧ index (after resp) = index s.
Proof.
  intros document Hacc Hsize Hfail resp. subst resp document.
  destruct Hfail as [Hopen | [Hopen Hwrite]].
  - rewrite (upload_open_fails _ _ _ Hacc _ _ _ _ _ Hsize Hopen).
    destruct (disk s !! _), (faults IoUnlink); cbn; repeat split.
    all: intros row Hin; repeat (apply elem_of_cons in Hin as [Hin|Hin]; [discriminate |]).
    all: by apply elem_of_nil in Hin.
  - rewrite (upload_write_fails _ _ _ Hacc _ _ _ _ _ Hsize Hopen Hwrite).
    destruct (faults IoUnlink); cbn; repeat split.
    all: intros row Hin; repeat (apply elem_of_cons in Hin as [Hin|Hin]; [discriminate |]).
    all: by apply elem_of_nil in Hin.
Qed.

(** C2: when the INSERT (or its commit) fails after the blob has been
    written, [upload_document] calls [unlink] on the path it has just
    written before it answers a server fault; unless that [unlink] raises
    too, the blob is gone; the index is as it was, and so is every later
    listing. *)
Theorem upload_insert_failure_compensated
    (name : string) (content : list byte) (p : nat)
    (t : Z) (rnd : nat) (iso : string) (faults : io → bool) (s : store) :
  let document := mkUploadFile name (Stream content p false) in
  let e := sequential t rnd iso faults in
  let path := storage_path e name in
  (validate_pdf_file document).1 = true →
  (Z.of_nat (length content) <= MAX_FILE_SIZE)%Z →
  faults IoOpen = false → faults IoWrite = false →
  faults IoInsert = true ∨ (faults IoInsert = false ∧ faults IoCommit = true) →
  let resp := serve (upload_document document) e s in
  status_code_of (outcome resp) = 500
  ∧ (∃ made, calls resp
             = ([CallOpen path; CallWrite path content] ++ made ++ [CallUnlink path])%list)
  ∧ (faults IoUnlink = false → disk (after resp) !! path = None)
  ∧ index (after resp) = index s
  ∧ ∀ t' rnd' iso' faults',
      outcome (serve get_documents (sequential t' rnd' iso' faults') (after resp))
      = outcome (serve get_documents (sequential t' rnd' iso' faults') s).
Proof.
  intros document e path Hacc Hsize Hopen Hwrite Hfail resp.
  assert (index (after resp) = index s
          ∧ status_code_of (outcome resp) = 500
          ∧ (∃ made, calls resp
               = ([CallOpen path; CallWrite path content] ++ made ++ [CallUnlink path])%list)
          ∧ (faults IoUnlink = false → disk (after resp) !! path = None))
    as (Hidx & ? & ? & ?).
  { subst resp document e path. destruct Hfail as [Hins | [Hins Hcommit]].
    - rewrite (upload_insert_fails _ _ _ Hacc _ _ _ _ _ Hsize Hopen Hwrite Hins).
      destruct (faults IoUnlink); cbn; repeat split; try done.
      all: try by exists [CallInsert (row_of (sequential t rnd iso faults) name content)].
      intros _. apply lookup_delete_eq.
    - rewrite (upload_commit_fails _ _ _ Hacc _ _ _ _ _ Hsize Hopen Hwrite Hins Hcommit).
      destruct (faults IoUnlink); cbn; repeat split; try done.
      all: try by exists [CallInsert (row_of (sequential t rnd iso faults) name content);
                          CallCommit].
      intros _. apply lookup_delete_eq. }
  repeat split; try done.
  intros. by apply get_documents_index.
Qed.

(** A successful upload was accepted by the validator, was within the size
    limit, and none of its calls raised. *)
Lemma upload_success_inv
    (document : UploadFile) (t : Z) (rnd : nat) (iso : string)
    (faults : io → bool) (s : store) (info : document_info) :
  outcome (serve (upload_document document) (sequential t rnd iso faults) s) = inr info →
  document = mkUploadFile (filename document)
               (Stream (data (file document)) (pos (file document)) false)
  ∧ (validate_pdf_file document).1 = true
  ∧ (Z.of_nat (length (data (file document))) <= MAX_FILE_SIZE)%Z
  ∧ faults IoOpen = false ∧ faults IoWrite = false ∧ faults IoInsert = false
  ∧ faults IoCommit = false ∧ faults IoSelect = false.
Proof.
  intros Hok.
  destruct ((validate_pdf_file document).1) eqn:Hacc; cycle 1.
  { by rewrite upload_rejected_by_validator in Hok. }
  pose proof (accepted_is_open _ Hacc) as Hopen.
  destruct document as [name [content p c]]. cbn in Hopen |- *.
  injection Hopen as ->.
  destruct (Z.le_gt_cases (Z.of_nat (length content)) MAX_FILE_SIZE) as [Hsize|Hsize];
    cycle 1.
  { by rewrite upload_too_large in Hok by (done || lia). }
  destruct (faults IoOpen) eqn:H1.
  { rewrite upload_open_fails in Hok by done.
    by destruct (disk s !! _), (faults IoUnlink). }
  destruct (faults IoWrite) eqn:H2.
  { rewrite upload_write_fails in Hok by done. by destruct (faults IoUnlink). }
  destruct (faults IoInsert) eqn:H3.
  { rewrite upload_insert_fails in Hok by done. by destruct (faults IoUnlink). }
  destruct (faults IoCommit) eqn:H4.
  { rewrite upload_commit_fails in Hok by done. by destruct (faults IoUnlink). }
  destruct (faults IoSelect) eqn:H5.
  { rewrite upload_reread_fails in Hok by done. by destruct (faults IoUnlink). }
  done.
Qed.

(** C6: after an upload that succeeded, downloading the id it returned
    yields a response whose body is exactly the uploaded bytes, whose media
    type is [application/pdf] and whose suggested file name is the name the
    client gave. *)
Theorem upload_download_roundtrip
    (document : UploadFile) (t : Z) (rnd : nat) (iso : string)
    (faults : io → bool) (s : store) (info : document_info)
    (t' : Z) (rnd' : nat) (iso' : string) :
  let up := serve (upload_document document) (sequential t rnd iso faults) s in
  outcome up = inr info →
  let down := serve (download_document (info_id info)) (reliable t' rnd' iso') (after up) in
  ∃ resp, outcome down = inr resp
    ∧ body resp (after down) = Some (data (file document))
    ∧ media_type resp = "application/pdf"
    ∧ response_filename resp = filename document.
Proof.
  intros up Hok down.
  destruct (upload_success_inv _ _ _ _ _ _ _ Hok)
    as (Hdoc & Hacc & Hsize & H1 & H2 & H3 & H4 & H5).
  subst down up. revert Hok Hacc. rewrite Hdoc.
  cbn [filename file data]. intros Hok Hacc.
  rewrite upload_ok in Hok |- * by done.
  injection Hok as <-.
  unfold after. cbn [fst snd info_id]. unfold reliable.
  erewrite download_ok; [| done | cbn; apply lookup_insert_eq | cbn; apply lookup_insert_eq].
  eexists. split; [done |]. unfold body. cbn.
  by rewrite lookup_insert_eq.
Qed.

(** C7, as the code has it: when the path that [upload_document] generates
    already holds a file, the upload still succeeds and the file at that
    path then holds the new content: [open(..., 'wb')] truncates what was
    there and nothing raises. *)
Theorem write_replaces_existing_blob
    (name : string) (content old : list byte) (p : nat)
    (t : Z) (rnd : nat) (iso : string) (s : store) :
  let document := mkUploadFile name (Stream content p false) in
  let e := reliable t rnd iso in
  (validate_pdf_file document).1 = true →
  (Z.of_nat (length content) <= MAX_FILE_SIZE)%Z →
  disk s !! storage_path e name = Some old →
  let resp := serve (upload_document document) e s in
  (∃ info, outcome resp = inr info)
  ∧ disk (after resp) !! storage_path e name = Some content
  ∧ calls resp
    = [CallOpen (storage_path e name); CallWrite (storage_path e name) content;
       CallInsert (row_of e name content); CallCommit;
       CallSelect (next_rowid (index s))].
Proof.
  intros document e Hacc Hsize Hold resp. subst resp e document. unfold reliable.
  rewrite upload_ok by done. cbn. split; [by eexists |].
  by rewrite lookup_insert_eq.
Qed.

(** An empty file never passes the validator. *)
Lemma validate_pdf_file_empty (name : string) (p : nat) (c : bool) :
  (validate_pdf_file (mkUploadFile name (Stream [] p c))).1 = false.
Proof.
  unfold validate_pdf_file, seek, read. cbn.
  by destruct (endswith (lower name) ".pdf"), c.
Qed.

(** C4: the size check comes before any write.  An empty file is answered
    with a 400 with nothing touched (the validator has already refused it);
    an accepted file larger than [MAX_FILE_SIZE], one byte over in
    particular, is answered with the 400 "File size exceeds 10MB limit" with
    nothing touched; an accepted file of exactly [MAX_FILE_SIZE] bytes gets
    past the check: its first call is the [open] of the blob, its answer is
    not a 400, and when nothing fails it is stored whole. *)
Theorem upload_size_check
    (name : string) (content : list byte) (p : nat) (e : env) (s : store) :
  let document := mkUploadFile name (Stream content p false) in
  let size := Z.of_nat (length content) in
  let resp := serve (upload_document document) e s in
  (size = 0 → resp = (inl (HTTPException 400 "Only PDF files are allowed"), s, []))
  ∧ ((validate_pdf_file document).1 = true →
     (MAX_FILE_SIZE < size →
      resp = (inl (HTTPException 400 "File size exceeds 10MB limit"), s, []))
     ∧ (size = MAX_FILE_SIZE + 1 →
        resp = (inl (HTTPException 400 "File size exceeds 10MB limit"), s, []))
     ∧ (size = MAX_FILE_SIZE →
        status_code_of (outcome resp) ≠ 400
        ∧ (∃ rest, calls resp = CallOpen (storage_path e name) :: rest)
        ∧ ∀ t rnd iso, e = reliable t rnd iso →
            outcome resp = inr (mkInfo (next_rowid (index s)) name MAX_FILE_SIZE iso)
            ∧ disk (after resp) !! storage_path e name = Some content)).
Proof.
  intros document size resp. subst resp size document. split.
  - intros Hzero. apply upload_rejected_by_validator.
    destruct content; [apply validate_pdf_file_empty | done].
  - intros Hacc. split; [| split].
    + by apply upload_too_large.
    + intros Hsize. apply upload_too_large; [done | lia].
    + intros Hsize.
      destruct (upload_past_size_check _ _ _ Hacc e s) as [Hcalls Hno400]; [lia |].
      split; [| split; [done |]].
      * destruct (outcome _) as [[c d| | |]|] eqn:Hout; cbn; try done.
        intros ->. by apply (Hno400 d).
      * intros t rnd iso ->. unfold reliable.
        rewrite upload_ok by (done || lia). cbn. rewrite Hsize.
        split; [done | apply lookup_insert_eq].
Qed.

(** C10: a zero-byte upload is refused by [validate_pdf_file] itself, so
    [upload_document] answers it with "Only PDF files are allowed"; and no
    upload whatsoever, in any environment, is answered with "Empty file not
    allowed". *)
Theorem empty_file_branch_unreachable :
  (∀ name p c e s,
     let document := mkUploadFile name (Stream [] p c) in
     (validate_pdf_file document).1 = false
     ∧ serve (upload_document document) e s
       = (inl (HTTPException 400 "Only PDF files are allowed"), s, []))
  ∧ ∀ document e s,
      outcome (serve (upload_document document) e s)
      ≠ inl (HTTPException 400 "Empty file not allowed").
Proof.
  split.
  - intros name p c e s document. split; [apply validate_pdf_file_empty |].
    apply upload_rejected_by_validator, validate_pdf_file_empty.
  - intros document e s.
    destruct ((validate_pdf_file document).1) eqn:Hacc; cycle 1.
    { by rewrite upload_rejected_by_validator. }
    rewrite (accepted_is_open _ Hacc) in Hacc |- *.
    destruct (Z.le_gt_cases (Z.of_nat (length (data (file document)))) MAX_FILE_SIZE)
      as [Hsize|Hsize].
    + apply (upload_past_size_check _ _ _ Hacc e s Hsize).
    + by rewrite upload_too_large by (done || lia).
Qed.

(** ** Consistency of the two stores *)

Lemma consistent_empty : consistent empty_store.
Proof. split; intros ? *; cbn; by rewrite lookup_empty. Qed.

(** Changing the disk at a path that no row refers to keeps the stores
    consistent. *)
Lemma consistent_frame (s s' : store) (path : string) :
  consistent s →
  index s' = index s →
  (∀ q, q ≠ path → disk s' !! q = disk s !! q) →
  (∀ id r, documents (index s) !! id = Some r → filepath r ≠ path) →
  consistent s'.
Proof.
  intros [Hblobs Hpaths] Hidx Hdisk Hunused. split.
  - intros id r Hrow. rewrite Hidx in Hrow.
    rewrite Hdisk by eauto. eauto.
  - unfold distinct_paths. rewrite Hidx. apply Hpaths.
Qed.

(** Adding a row for a blob that has just been written at an unused path
    keeps the stores consistent. *)
Lemma consistent_insert (s : store) (id : Z) (r : document_row) (content : list byte) :
  consistent s →
  (∀ id' r', documents (index s) !! id' = Some r' → filepath r' ≠ filepath r) →
  consistent
    (mkStore (<[filepath r := content]> (<[filepath r := []]> (disk s)))
             (mkDatabase (<[id := r]> (documents (index s))) id)).
Proof.
  intros [Hblobs Hpaths] Hunused. split.
  - intros id' r'. cbn. intros [[-> ->] | [Hne Hrow]]%lookup_insert_Some.
    + by rewrite lookup_insert_eq.
    + rewrite !lookup_insert_ne by (symmetry; eauto). eauto.
  - intros id1 id2 r1 r2. cbn.
    intros [[-> ->] | [Hne1 Hrow1]]%lookup_insert_Some
           [[-> ->] | [Hne2 Hrow2]]%lookup_insert_Some Hsame; try done.
    + by destruct (Hunused _ _ Hrow2).
    + by destruct (Hunused _ _ Hrow1).
    + eauto.
Qed.

(** Removing a row together with its blob keeps the stores consistent. *)
Lemma consistent_delete (s : store) (id : Z) (r : document_row) :
  consistent s →
  documents (index s) !! id = Some r →
  consistent
    (mkStore (delete (filepath r) (disk s))
             (mkDatabase (delete id (documents (index s))) (sqlite_sequence (index s)))).
Proof.
  intros [Hblobs Hpaths] Hrow. split.
  - intros id' r'. cbn. intros [Hne Hrow']%lookup_delete_Some.
    rewrite lookup_delete_ne; [eauto |].
    intros Hsame. apply Hne. eauto.
  - intros id1 id2 r1 r2. cbn.
    intros [_ Hrow1]%lookup_delete_Some [_ Hrow2]%lookup_delete_Some. eauto.
Qed.

(** What a deletion leaves, when the DELETE and its commit do not fail:
    either the stores as they were, or the stores without the row and
    without its blob. *)
Lemma delete_effect
    (t : Z) (rnd : nat) (iso : string) (faults : io → bool) (s : store) (id : Z) :
  faults IoDelete = false → faults IoCommit = false →
  let s' := after (serve (delete_document id) (sequential t rnd iso faults) s) in
  s' = s
  ∨ ∃ r, documents (index s) !! id = Some r
         ∧ s' = mkStore (delete (filepath r) (disk s))
                  (mkDatabase (delete id (documents (index s)))
                              (sqlite_sequence (index s))).
Proof.
  intros Hdel Hcommit. unfold_handler. explore; try by left.
  - right. by eexists.
  - right. eexists. split; [done |]. cbn. f_equal.
    symmetry. apply delete_id.
    match goal with H : bool_decide _ = false |- _ =>
      apply bool_decide_eq_false in H; by apply eq_None_not_Some end.
Qed.

Lemma delete_consistent (e : env) (id : Z) (s : store) :
  consistent s → regular e (Delete id) s → consistent (handle e (Delete id) s).
Proof.
  intros Hs [(t & rnd & iso & faults & ->) [Hdel Hcommit]]. cbn in Hdel, Hcommit.
  unfold handle.
  destruct (delete_effect t rnd iso faults s id Hdel Hcommit) as [-> | (r & Hrow & ->)];
    [done | by apply consistent_delete].
Qed.

Lemma upload_consistent (e : env) (document : UploadFile) (s : store) :
  consistent s → regular e (Upload document) s →
  consistent (handle e (Upload document) s).
Proof.
  intros Hs [(t & rnd & iso & faults & ->) [Hsel Hunused]]. cbn in Hsel.
  unfold handle.
  destruct ((validate_pdf_file document).1) eqn:Hacc; cycle 1.
  { by rewrite upload_rejected_by_validator. }
  pose proof (accepted_is_open _ Hacc) as Hopen.
  destruct document as [name [content p c]]. cbn in Hopen, Hunused.
  injection Hopen as ->.
  destruct (Z.le_gt_cases (Z.of_nat (length content)) MAX_FILE_SIZE) as [Hsize|Hsize];
    cycle 1.
  { by rewrite upload_too_large by (done || lia). }
  set (path := storage_path (sequential t rnd iso faults) name) in *.
  assert (∀ d d' : gmap string (list byte),
            (∀ q, q ≠ path → d' !! q = d !! q) →
            (∀ q, q ≠ path → delete path d' !! q = d !! q)) as Hdelete.
  { intros d d' Hd q Hq. rewrite lookup_delete_ne by done. by apply Hd. }
  assert (∀ (d d' : gmap string (list byte)) (b : list byte),
            (∀ q, q ≠ path → d' !! q = d !! q) →
            (∀ q, q ≠ path → <[path := b]> d' !! q = d !! q)) as Hinsert.
  { intros d d' b Hd q Hq. rewrite lookup_insert_ne by done. by apply Hd. }
  destruct (faults IoOpen) eqn:H1.
  { rewrite upload_open_fails by done. fold path.
    destruct (disk s !! path), (faults IoUnlink); cbn; try done.
    apply (consistent_frame s _ path); cbn; auto. }
  destruct (faults IoWrite) eqn:H2.
  { rewrite upload_write_fails by done. fold path.
    destruct (faults IoUnlink); cbn; apply (consistent_frame s _ path); cbn; auto. }
  destruct (faults IoInsert) eqn:H3.
  { rewrite upload_insert_fails by done. fold path.
    destruct (faults IoUnlink); cbn; apply (consistent_frame s _ path); cbn; auto. }
  destruct (faults IoCommit) eqn:H4.
  { rewrite upload_commit_fails by done. fold path.
    destruct (faults IoUnlink); cbn; apply (consistent_frame s _ path); cbn; auto. }
  rewrite upload_ok by done. cbn.
  apply (consistent_insert s _ (row_of (sequential t rnd iso faults) name content));
    [done | apply Hunused].
Qed.

Lemma run_consistent (rqs : list (env * request)) (s : store) :
  consistent s → regular_run rqs s → consistent (run rqs s).
Proof.
  revert s; induction rqs as [|[e rq] rqs IH]; intros s Hs Hrun; [done |].
  destruct Hrun as [Hreg Hrun]. cbn. apply IH; [| done].
  destruct rq; [by apply upload_consistent | by apply delete_consistent].
Qed.

(** C1, as the code has it: starting from the empty stores, after any
    sequence of uploads and deletions that are served one at a time, in
    which every upload generates a storage path that no row of the index
    refers to, no upload's re-read of the row it has committed raises, and
    no deletion's DELETE or commit raises, every row of the index has a file
    at its [filepath]. *)
Theorem no_orphan_rows_reachable (rqs : list (env * request)) :
  regular_run rqs empty_store → no_orphan_rows (run rqs empty_store).
Proof. intros Hrun. by apply (run_consistent rqs empty_store consistent_empty). Qed.

(** ** Examples *)

(** Against C1 as stated: two uploads of the same name in the same second
    that draw the same random suffix get the same path (nothing fails);
    deleting the first document then leaves the row of the second without
    its blob. *)
Lemma orphan_row_after_key_collision :
  ¬ no_orphan_rows
      (run [(sample_env, Upload sample_pdf); (later_env, Upload other_pdf);
            (later_env, Delete 1)]
           empty_store).
Proof.
  intros H.
  destruct (H 2 (row_of later_env "Report.PDF" (data (file other_pdf))))
    as [blob Hblob]; [by vm_compute |].
  vm_compute in Hblob. discriminate.
Qed.

(** Against C7 as stated: the second of two colliding uploads writes to the
    path that already holds the first blob, succeeds, and replaces its
    content. *)
Lemma upload_overwrites_existing_blob :
  let first := serve (upload_document sample_pdf) sample_env empty_store in
  let second := serve (upload_document other_pdf) later_env (after first) in
  let path := "server/uploads/1700000000-5242-Report.PDF" in
  disk (after first) !! path = Some (data (file sample_pdf))
  ∧ calls second !! 1%nat = Some (CallWrite path (data (file other_pdf)))
  ∧ status_code_of (outcome second) = 200
  ∧ disk (after second) !! path = Some (data (file other_pdf))
  ∧ data (file other_pdf) ≠ data (file sample_pdf).
Proof. by vm_compute. Qed.

(** The other two ways to a row without a blob, which [regular] excludes:
    the re-read after the commit of an upload raises (the compensation then
    unlinks the blob of a committed row), and the commit of a deletion
    raises after the blob has been unlinked. *)
Lemma orphan_row_after_failed_reread :
  let faults := λ p, match p with IoSelect => true | _ => false end in
  ¬ no_orphan_rows
      (run [(sequential 1700000000 4242 "2023-11-14T22:13:20.125000" faults, Upload sample_pdf)]
           empty_store).
Proof.
  intros faults H.
  destruct (H 1 (row_of sample_env "Report.PDF" (data (file sample_pdf))))
    as [blob Hblob]; [by vm_compute |].
  vm_compute in Hblob. discriminate.
Qed.

Lemma orphan_row_after_failed_delete :
  let faults := λ p, match p with IoCommit => true | _ => false end in
  ¬ no_orphan_rows
      (run [(sample_env, Upload sample_pdf);
            (sequential 1700000000 4242 "2023-11-14T22:13:20.875000" faults, Delete 1)]
           empty_store).
Proof.
  intros faults H.
  destruct (H 1 (row_of sample_env "Report.PDF" (data (file sample_pdf))))
    as [blob Hblob]; [by vm_compute |].
  vm_compute in Hblob. discriminate.
Qed.

(** ** Instances *)

Lemma sample_pdf_accepted : (validate_pdf_file sample_pdf).1 = true.
Proof. reflexivity. Defined.

Lemma sample_pdf_size :
  (Z.of_nat (length (data (file sample_pdf))) <= MAX_FILE_SIZE)%Z.
Proof. by vm_compute. Defined.

Lemma sample_upload_store :
  handle sample_env (Upload sample_pdf) empty_store
  = mkStore (<[storage_path sample_env "Report.PDF" := data (file sample_pdf)]>
               (<[storage_path sample_env "Report.PDF" := []]> ∅))
            (mkDatabase
               (<[1 := row_of sample_env "Report.PDF" (data (file sample_pdf))]> ∅) 1).
Proof.
  unfold handle, sample_env, reliable.
  by rewrite (upload_ok _ _ _ sample_pdf_accepted _ _ _ _ _ sample_pdf_size
                eq_refl eq_refl eq_refl eq_refl eq_refl).
Qed.

(** An upload, a second upload one second later (hence under another key),
    and the deletion of the first document. *)
Lemma no_orphan_rows_reachable_witness :
  let next_second := reliable 1700000001 4242 "2023-11-14T22:13:21.250000" in
  let rqs := [(sample_env, Upload sample_pdf); (next_second, Upload other_pdf);
              (next_second, Delete 1)] in
  regular_run rqs empty_store ∧ no_orphan_rows (run rqs empty_store).
Proof.
  intros next_second rqs.
  assert (regular_run rqs empty_store) as Hrun.
  { cbn [rqs regular_run]. split; [| split; [| split; [| exact I]]].
    - split; [by exists 1700000000, 4242%nat, "2023-11-14T22:13:20.125000", (λ _, false) |].
      split; [reflexivity |]. intros id r Hrow.
      change (documents (index empty_store)) with (∅ : gmap Z document_row) in Hrow.
      by rewrite lookup_empty in Hrow.
    - split; [by exists 1700000001, 4242%nat, "2023-11-14T22:13:21.250000", (λ _, false) |].
      split; [reflexivity |]. intros id r Hrow.
      rewrite sample_upload_store in Hrow. unfold index, documents in Hrow.
      apply lookup_insert_Some in Hrow as [[_ <-] | [_ Hrow]].
      + by vm_compute.
      + by rewrite lookup_empty in Hrow.
    - split; [by exists 1700000001, 4242%nat, "2023-11-14T22:13:21.250000", (λ _, false) |].
      split; reflexivity. }
  split; [exact Hrun | exact (no_orphan_rows_reachable rqs Hrun)].
Defined.

(** An upload whose INSERT raises. *)
Lemma upload_insert_failure_compensated_witness :
  let faults := λ p, match p with IoInsert => true | _ => false end in
  let resp := serve (upload_document sample_pdf)
                (sequential 1700000000 4242 "2023-11-14T22:13:20.125000" faults) empty_store in
  status_code_of (outcome resp) = 500
  ∧ index (after resp) = index empty_store.
Proof.
  intros faults resp.
  destruct (upload_insert_failure_compensated
              "Report.PDF" (data (file sample_pdf)) 0
              1700000000 4242 "2023-11-14T22:13:20.125000" faults empty_store
              sample_pdf_accepted sample_pdf_size eq_refl eq_refl
              (or_introl eq_refl))
    as (Hstatus & _ & _ & Hindex & _).
  split; [exact Hstatus | exact Hindex].
Defined.

(** An upload whose write raises. *)
Lemma upload_write_failure_no_insert_witness :
  let faults := λ p, match p with IoWrite => true | _ => false end in
  let resp := serve (upload_document sample_pdf)
                (sequential 1700000000 4242 "2023-11-14T22:13:20.125000" faults) empty_store in
  status_code_of (outcome resp) = 500
  ∧ index (after resp) = index empty_store.
Proof.
  intros faults resp.
  destruct (upload_write_failure_no_insert
              "Report.PDF" (data (file sample_pdf)) 0
              1700000000 4242 "2023-11-14T22:13:20.125000" faults empty_store
              sample_pdf_accepted sample_pdf_size
              (or_intror (conj eq_refl eq_refl)))
    as (Hstatus & _ & Hindex).
  split; [exact Hstatus | exact Hindex].
Defined.

(** The validator on the sample file. *)
Lemma validate_pdf_file_spec_witness :
  (validate_pdf_file sample_pdf).1 = true
  ∧ is_pdf_name "Report.PDF"
  ∧ has_pdf_signature (data (file sample_pdf))
  ∧ (validate_pdf_file sample_pdf).2 = sample_pdf.
Proof.
  destruct (validate_pdf_file_spec "Report.PDF" (data (file sample_pdf)) 0)
    as (Hiff & Hpos & _ & _).
  destruct (proj1 Hiff sample_pdf_accepted) as [Hname Hsig].
  destruct (Hpos sample_pdf_accepted) as [Hsame _].
  exact (conj sample_pdf_accepted (conj Hname (conj Hsig Hsame))).
Defined.

(** The sample file uploaded and downloaded again. *)
Lemma upload_download_roundtrip_witness :
  let up := serve (upload_document sample_pdf) sample_env empty_store in
  let down := serve (download_document 1) later_env (after up) in
  outcome up = inr (mkInfo 1 "Report.PDF" 6 "2023-11-14T22:13:20.125000")
  ∧ ∃ resp, outcome down = inr resp
      ∧ body resp (after down) = Some (data (file sample_pdf))
      ∧ media_type resp = "application/pdf"
      ∧ response_filename resp = "Report.PDF".
Proof.
  intros up down.
  assert (outcome up = inr (mkInfo 1 "Report.PDF" 6 "2023-11-14T22:13:20.125000")) as Hup
    by reflexivity.
  split; [exact Hup |].
  exact (upload_download_roundtrip sample_pdf 1700000000 4242 "2023-11-14T22:13:20.125000"
           (λ _, false) empty_store _ 1700000000 4242 "2023-11-14T22:13:20.875000" Hup).
Defined.

(** A second upload under the path of the first. *)
Lemma write_replaces_existing_blob_witness :
  let s := handle sample_env (Upload sample_pdf) empty_store in
  let resp := serve (upload_document other_pdf) later_env s in
  let path := storage_path later_env "Report.PDF" in
  disk s !! path = Some (data (file sample_pdf))
  ∧ (∃ info, outcome resp = inr info)
  ∧ disk (after resp) !! path = Some (data (file other_pdf)).
Proof.
  intros s resp path.
  assert (disk s !! path = Some (data (file sample_pdf))) as Hold by (by vm_compute).
  assert ((validate_pdf_file other_pdf).1 = true) as Hacc by reflexivity.
  assert (Z.of_nat (length (data (file other_pdf))) <= MAX_FILE_SIZE)%Z as Hsize
    by (by vm_compute).
  destruct (write_replaces_existing_blob "Report.PDF" (data (file other_pdf))
              (data (file sample_pdf)) 0 1700000000 4242 "2023-11-14T22:13:20.875000" s
              Hacc Hsize Hold) as (Hok & Hnew & _).
  exact (conj Hold (conj Hok Hnew)).
Defined.

(** Document 1 deleted twice, and deleted while another request deletes it. *)
Lemma delete_twice_witness :
  let s := handle sample_env (Upload sample_pdf) empty_store in
  let r := row_of sample_env "Report.PDF" (data (file sample_pdf)) in
  let first := serve (delete_document 1) later_env s in
  let second := serve (delete_document 1) later_env (after first) in
  documents (index s) !! 1 = Some r
  ∧ outcome first = inr tt
  ∧ outcome second = inl (HTTPException 404 "Document not found")
  ∧ RowsAffected 0 ∈ calls (serve (delete_document 1) racing_env s)
  ∧ outcome (serve (delete_document 1) racing_env s)
    = inl (HTTPException 404 "Document not found").
Proof.
  intros s r first second.
  assert (documents (index s) !! 1 = Some r) as Hrow by (by vm_compute).
  assert (RowsAffected 0 ∈ calls (serve (delete_document 1) racing_env s)) as Hzero.
  { vm_compute. do 3 apply list_elem_of_further. apply list_elem_of_here. }
  destruct (delete_twice 1700000000 1700000000 4242 4242
              "2023-11-14T22:13:20.875000" "2023-11-14T22:13:20.875000" s 1 r Hrow)
    as (Hfirst & _ & _ & _ & Hsecond & _ & _ & Hrace).
  exact (conj Hrow (conj Hfirst (conj Hsecond
           (conj Hzero (Hrace racing_env s eq_refl Hzero))))).
Defined.

(** The download of the document that the key collision left without a
    blob. *)
Lemma download_missing_blob_not_found_witness :
  let s := run [(sample_env, Upload sample_pdf); (later_env, Upload other_pdf);
                (later_env, Delete 1)] empty_store in
  let r := row_of later_env "Report.PDF" (data (file other_pdf)) in
  documents (index s) !! 2 = Some r
  ∧ disk s !! filepath r = None
  ∧ outcome (serve (download_document 2) sample_env s)
    = inl (HTTPException 404 "File not found on disk").
Proof.
  intros s r.
  assert (documents (index s) !! 2 = Some r) as Hrow by (by vm_compute).
  assert (disk s !! filepath r = None) as Hblob by (by vm_compute).
  destruct (download_missing_blob_not_found 1700000000 4242 "2023-11-14T22:13:20.125000"
              (λ _, false) s 2 r eq_refl Hrow Hblob) as (Hout & _).
  exact (conj Hrow (conj Hblob Hout)).
Defined.

Lemma boundary_pdf_accepted : (validate_pdf_file boundary_pdf).1 = true.
Proof.
  apply validate_pdf_file_accepts. split.
  - exists "scan", "p"%char, "d"%char, "f"%char. auto.
  - by eexists.
Qed.

Lemma boundary_pdf_size :
  Z.of_nat (length (data (file boundary_pdf))) = MAX_FILE_SIZE.
Proof.
  unfold boundary_pdf. cbn [file data].
  rewrite length_app, length_replicate. unfold PDF_MAGIC. cbn [length].
  unfold MAX_FILE_SIZE. lia.
Qed.

(** The upload of a file of exactly [MAX_FILE_SIZE] bytes. *)
Lemma upload_size_check_witness :
  let resp := serve (upload_document boundary_pdf) sample_env empty_store in
  (validate_pdf_file boundary_pdf).1 = true
  ∧ Z.of_nat (length (data (file boundary_pdf))) = MAX_FILE_SIZE
  ∧ status_code_of (outcome resp) ≠ 400
  ∧ outcome resp = inr (mkInfo 1 "scan.pdf" MAX_FILE_SIZE "2023-11-14T22:13:20.125000")
  ∧ disk (after resp) !! storage_path sample_env "scan.pdf"
    = Some (data (file boundary_pdf)).
Proof.
  intros resp.
  destruct (upload_size_check "scan.pdf" (data (file boundary_pdf)) 0
              sample_env empty_store) as [_ Haccepted].
  destruct (Haccepted boundary_pdf_accepted) as (_ & _ & Hlimit).
  destruct (Hlimit boundary_pdf_size) as (Hstatus & _ & Hstored).
  destruct (Hstored 1700000000 4242%nat "2023-11-14T22:13:20.125000" eq_refl)
    as [Hout Hblob].
  exact (conj boundary_pdf_accepted (conj boundary_pdf_size
           (conj Hstatus (conj Hout Hblob)))).
Defined.


(** * Further properties *)

(** [explore], also through the tests that it leaves. *)
Ltac explore_all :=
  explore;
  repeat (match goal with
          | |- context [bool_decide ?P] => destruct (bool_decide P) eqn:?
          | |- context [(?a =? ?b)%Z] => destruct (Z.eqb_spec a b)
          end;
          explore).

(** ** Generated names *)

(** X1: [generate_unique_filename] never fails and leaves the state alone;
    its result is the timestamp, a suffix between 1000 and 9999 and the
    client's name as it came, joined by dashes. *)
Theorem generate_unique_filename_shape (original : string) (e : env) (st : state) :
  ∃ suffix, (1000 <= suffix <= 9999)%Z
    ∧ generate_unique_filename original e st
      = (inr (pretty (time_time e) ++ "-" ++ pretty suffix ++ "-" ++ original), st).
Proof.
  exists (randint e 1000 9999). split; [by apply randint_range |].
  by rewrite generate_unique_filename_run, unique_filename_of_original.
Qed.

Lemma pretty_N_go_digits (x : N) (s : string) :
  all_digits s = true → all_digits (pretty_N_go x s) = true.
Proof.
  revert s. induction (N.lt_wf_0 x) as [x _ IH]; intros s Hs.
  assert (x = 0 ∨ 0 < x)%N as [-> | Hpos] by lia.
  - by rewrite pretty_N_go_0.
  - rewrite pretty_N_go_step by done. apply IH; [by apply N.div_lt |].
    cbn [all_digits]. rewrite Hs, andb_true_r.
    assert (x `mod` 10 < 10)%N as Hlt by (by apply N.mod_lt).
    generalize dependent (x `mod` 10)%N. intros m Hm.
    assert (m = 0 ∨ m = 1 ∨ m = 2 ∨ m = 3 ∨ m = 4 ∨ m = 5 ∨ m = 6 ∨ m = 7
            ∨ m = 8 ∨ m = 9)%N as Hcases by lia.
    by destruct Hcases as [-> | [-> | [-> | [-> | [-> | [-> | [-> | [-> | [-> | ->]]]]]]]]].
Qed.

(** The decimal rendering of a non-negative integer has digits only. *)
Lemma pretty_digits (x : Z) : (0 <= x)%Z → all_digits (pretty x) = true.
Proof.
  intros Hx. destruct x as [|q|q]; [done | | lia].
  unfold pretty, pretty_Z, pretty, pretty_positive, pretty, pretty_N.
  case_decide; [done |]. by apply pretty_N_go_digits.
Qed.

(** A run of digits followed by a dash is read off a string in one way only. *)
Lemma digits_dash_split (d1 d2 r1 r2 : string) :
  all_digits d1 = true → all_digits d2 = true →
  d1 ++ String "-" r1 = d2 ++ String "-" r2 → d1 = d2 ∧ r1 = r2.
Proof.
  revert d2; induction d1 as [|c d1 IH]; intros [|c' d2] H1 H2 Heq.
  - rewrite !append_nil in Heq. by injection Heq.
  - rewrite append_nil, append_cons in Heq. injection Heq as <- _.
    cbn in H2. discriminate.
  - rewrite append_nil, append_cons in Heq. injection Heq as -> _.
    cbn in H1. discriminate.
  - rewrite !append_cons in Heq. injection Heq as -> Heq.
    cbn [all_digits] in H1, H2.
    apply andb_true_iff in H1 as [_ H1]. apply andb_true_iff in H2 as [_ H2].
    destruct (IH d2 H1 H2 Heq) as [-> ->]. done.
Qed.

(** X2: two generated names coincide only when the timestamp, the random
    suffix and the client's name do (for timestamps that are not
    negative). *)
Theorem generated_names_coincide
    (n1 n2 : string) (e1 e2 : env) (st1 st2 : state) :
  (0 <= time_time e1)%Z → (0 <= time_time e2)%Z →
  (generate_unique_filename n1 e1 st1).1 = (generate_unique_filename n2 e2 st2).1 →
  time_time e1 = time_time e2
  ∧ randint e1 1000 9999 = randint e2 1000 9999
  ∧ n1 = n2.
Proof.
  intros Ht1 Ht2. rewrite !generate_unique_filename_run. cbn [fst].
  rewrite !unique_filename_of_original. intros [= Heq].
  pose proof (randint_range e1 1000 9999) as Hr1.
  pose proof (randint_range e2 1000 9999) as Hr2.
  apply digits_dash_split in Heq as [Ht Heq]; [| by apply pretty_digits ..].
  apply digits_dash_split in Heq as [Hr Hn]; [| apply pretty_digits; lia ..].
  split; [by apply (inj pretty) |]. split; [by apply (inj pretty) | done].
Qed.

(** ** The validator on a closed file object *)

(** X3: a closed file object makes the stream calls of [validate_pdf_file]
    raise; the validator answers [False] without touching the object, and
    [upload_document] answers the client error 400 with nothing touched,
    not a server fault. *)
Theorem closed_file_rejected
    (name : string) (content : list byte) (p : nat) (e : env) (s : store) :
  let document := mkUploadFile name (Stream content p true) in
  validate_pdf_file document = (false, document)
  ∧ serve (upload_document document) e s
    = (inl (HTTPException 400 "Only PDF files are allowed"), s, []).
Proof.
  intros document.
  assert (validate_pdf_file document = (false, document)) as Hval.
  { unfold validate_pdf_file, seek. cbn.
    by destruct (endswith (lower name) ".pdf"). }
  split; [done |]. apply upload_rejected_by_validator. by rewrite Hval.
Qed.

(** ** Listings *)

Lemma map_fmap {A B} (f : A → B) (l : list A) : map f l = f <$> l.
Proof. induction l as [|x l IH]; [done |]. cbn. by rewrite IH. Qed.

#[local] Instance newer_first_total :
  Total (λ a b : Z * document_row, Is_true (newer_first a b)).
Proof.
  intros a b. unfold newer_first.
  rewrite (String.compare_antisym (created_at a.2) (created_at b.2)).
  destruct (String.compare (created_at b.2) (created_at a.2)); cbn; auto.
  destruct (Z.leb_spec a.1 b.1), (Z.leb_spec b.1 a.1); cbn; auto. lia.
Qed.

Lemma newer_first_not_older (a b : Z * document_row) :
  Is_true (newer_first a b) → not_older (info_of a) (info_of b).
Proof.
  unfold newer_first, not_older. cbn.
  by destruct (String.compare (created_at a.2) (created_at b.2)).
Qed.

(** A listing, in terms of the rows of the index. *)
Lemma get_documents_run
    (t : Z) (rnd : nat) (iso : string) (faults : io → bool) (s : store) :
  faults IoSelectAll = false →
  ∃ listing,
    serve get_documents (sequential t rnd iso faults) s
    = (inr listing, s, [CallSelectAll])
    ∧ (∀ info, info ∈ listing
               ↔ ∃ r, documents (index s) !! info_id info = Some r
                      ∧ info = info_of (info_id info, r))
    ∧ NoDup (info_id <$> listing)
    ∧ length listing = size (documents (index s))
    ∧ Sorted not_older listing.
Proof.
  intros Hsel.
  set (rows := merge_sort (λ a b, Is_true (newer_first a b))
                 (map_to_list (documents (index s)))).
  assert (rows ≡ₚ map_to_list (documents (index s))) as Hperm
    by apply merge_sort_Permutation.
  exists (info_of <$> rows). split; [| split; [| split; [| split]]].
  - unfold_handler. crank. by rewrite map_fmap.
  - intros info. rewrite list_elem_of_fmap. split.
    + intros ([id r] & -> & Hin). rewrite Hperm in Hin.
      apply elem_of_map_to_list in Hin. by exists r.
    + intros (r & Hrow & ->). exists (info_id info, r). split; [done |].
      rewrite Hperm. by apply elem_of_map_to_list.
  - rewrite <- list_fmap_compose.
    change (info_id ∘ info_of) with (@fst Z document_row).
    rewrite Hperm. apply NoDup_fst_map_to_list.
  - by rewrite length_fmap, Hperm, length_map_to_list.
  - apply (Sorted_fmap _ (λ a b, Is_true (newer_first a b))).
    + apply newer_first_not_older.
    + apply Sorted_merge_sort, _.
Qed.

(** X4: when the SELECT does not fail, [get_documents] answers with one
    entry for every row of the index and no other (its id, the client's
    name, the size and the timestamp of the row), no id twice, ordered so
    that no entry is older than the one after it; the stores are left as
    they were. *)
Theorem get_documents_listing
    (t : Z) (rnd : nat) (iso : string) (faults : io → bool) (s : store) :
  faults IoSelectAll = false →
  ∃ listing,
    serve get_documents (sequential t rnd iso faults) s
    = (inr listing, s, [CallSelectAll])
    ∧ (∀ info, info ∈ listing
               ↔ ∃ r, documents (index s) !! info_id info = Some r
                      ∧ info = info_of (info_id info, r))
    ∧ NoDup (info_id <$> listing)
    ∧ length listing = size (documents (index s))
    ∧ Sorted not_older listing.
Proof. apply get_documents_run. Qed.

(** X5: [get_documents] and [download_document] never change the stores,
    whatever fails; a failing SELECT makes each of them answer its 500. *)
Theorem read_handlers_change_nothing
    (t : Z) (rnd : nat) (iso : string) (faults : io → bool) (s : store) (id : Z) :
  let e := sequential t rnd iso faults in
  after (serve get_documents e s) = s
  ∧ after (serve (download_document id) e s) = s
  ∧ (faults IoSelectAll = true →
     outcome (serve get_documents e s)
     = inl (HTTPException 500 "Internal server error"))
  ∧ (faults IoSelect = true →
     outcome (serve (download_document id) e s)
     = inl (HTTPException 500 "Internal server error during download")).
Proof.
  intros e. subst e. repeat split.
  - unfold_handler. by explore.
  - unfold_handler. by explore_all.
  - intros Hfail. unfold_handler. by crank.
  - intros Hfail. unfold_handler. by crank.
Qed.

(** ** What an upload changes *)

(** The three ways an upload served alone can end: it fails with the index
    as it was; its re-read raises after the row has been committed; or it
    succeeds.  In each of them the disk is changed at most at the generated
    path. *)
Lemma upload_effect
    (document : UploadFile) (t : Z) (rnd : nat) (iso : string)
    (faults : io → bool) (s : store) :
  let e := sequential t rnd iso faults in
  let name := filename document in
  let content := data (file document) in
  let path := storage_path e name in
  let id := next_rowid (index s) in
  let row := row_of e name content in
  let resp := serve (upload_document document) e s in
  (∀ q, q ≠ path → disk (after resp) !! q = disk s !! q)
  ∧ ((∃ x, outcome resp = inl x) ∧ index (after resp) = index s
     ∨ (∃ x, outcome resp = inl x) ∧ faults IoSelect = true
       ∧ index (after resp) = mkDatabase (<[id := row]> (documents (index s))) id
     ∨ outcome resp = inr (mkInfo id name (Z.of_nat (length content)) iso)
       ∧ after resp
         = mkStore (<[path := content]> (<[path := []]> (disk s)))
                   (mkDatabase (<[id := row]> (documents (index s))) id)
       ∧ (validate_pdf_file document).1 = true
       ∧ (Z.of_nat (length content) <= MAX_FILE_SIZE)%Z).
Proof.
  intros e name content path id row resp. subst resp row id path content name e.
  destruct ((validate_pdf_file document).1) eqn:Hacc; cycle 1.
  { rewrite upload_rejected_by_validator by done. split; [done |]. left. eauto. }
  pose proof (accepted_is_open _ Hacc) as Hopen.
  destruct document as [name [content p c]]. cbn in Hopen. cbn [filename file data].
  injection Hopen as ->.
  destruct (Z.le_gt_cases (Z.of_nat (length content)) MAX_FILE_SIZE) as [Hsize|Hsize];
    cycle 1.
  { rewrite upload_too_large by (done || lia). split; [done |]. left. eauto. }
  set (path := storage_path (sequential t rnd iso faults) name).
  assert (∀ d : gmap string (list byte), ∀ q, q ≠ path → delete path d !! q = d !! q)
    as Hdelete by (intros; by apply lookup_delete_ne).
  assert (∀ (d : gmap string (list byte)) b, ∀ q, q ≠ path → <[path := b]> d !! q = d !! q)
    as Hinsert by (intros; by apply lookup_insert_ne).
  destruct (faults IoOpen) eqn:H1.
  { rewrite upload_open_fails by done. fold path.
    destruct (disk s !! path), (faults IoUnlink); cbn; (split; [auto | left; eauto]). }
  destruct (faults IoWrite) eqn:H2.
  { rewrite upload_write_fails by done. fold path.
    destruct (faults IoUnlink); cbn; (split; [| left; eauto]);
      intros q Hq; rewrite ?Hdelete, ?Hinsert by done; done. }
  destruct (faults IoInsert) eqn:H3.
  { rewrite upload_insert_fails by done. fold path.
    destruct (faults IoUnlink); cbn; (split; [| left; eauto]);
      intros q Hq; rewrite ?Hdelete, ?Hinsert by done; done. }
  destruct (faults IoCommit) eqn:H4.
  { rewrite upload_commit_fails by done. fold path.
    destruct (faults IoUnlink); cbn; (split; [| left; eauto]);
      intros q Hq; rewrite ?Hdelete, ?Hinsert by done; done. }
  destruct (faults IoSelect) eqn:H5.
  { rewrite upload_reread_fails by done. fold path.
    destruct (faults IoUnlink); cbn; (split; [| right; left; eauto]);
      intros q Hq; rewrite ?Hdelete, ?Hinsert by done; done. }
  rewrite upload_ok by done. fold path. cbn. split; [| by right; right].
  intros q Hq. by rewrite !Hinsert.
Qed.

(** X6: an upload served alone touches no file but the one at the path it
    generates, whatever fails; and unless its re-read raises, it leaves the
    index exactly as it was when it fails, and adds exactly the row of the
    document (client's name, generated path, measured size, timestamp)
    under a new id when it succeeds. *)
Theorem upload_touches_own_path_and_row
    (document : UploadFile) (t : Z) (rnd : nat) (iso : string)
    (faults : io → bool) (s : store) :
  let e := sequential t rnd iso faults in
  let resp := serve (upload_document document) e s in
  (∀ q, q ≠ storage_path e (filename document) →
        disk (after resp) !! q = disk s !! q)
  ∧ (faults IoSelect = false →
    match outcome resp with
    | inl _ => index (after resp) = index s
    | inr info =>
        info = mkInfo (next_rowid (index s)) (filename document)
                 (Z.of_nat (length (data (file document)))) iso
        ∧ documents (index s) !! info_id info = None
        ∧ index (after resp)
          = mkDatabase
              (<[info_id info := row_of e (filename document) (data (file document))]>
                 (documents (index s)))
              (info_id info)
    end).
Proof.
  intros e resp.
  destruct (upload_effect document t rnd iso faults s)
    as [Hframe [[[x Hx] Hidx] | [(_ & Hfail & _) | (Hok & Hafter & _)]]].
  - split; [done |]. intros _. fold e resp in Hx. by rewrite Hx.
  - split; [done |]. congruence.
  - split; [done |]. intros _. fold e resp in Hok, Hafter. rewrite Hok, Hafter. cbn.
    split; [done |]. split; [apply next_rowid_fresh | done].
Qed.

(** ** Row ids *)

(** What a deletion served alone makes of the index, whatever fails: nothing,
    or the table without the row. *)
Lemma delete_index_effect
    (t : Z) (rnd : nat) (iso : string) (faults : io → bool) (s : store) (id : Z) :
  let s' := after (serve (delete_document id) (sequential t rnd iso faults) s) in
  index s' = index s
  ∨ index s' = mkDatabase (delete id (documents (index s))) (sqlite_sequence (index s)).
Proof. unfold_handler. explore_all; auto. Qed.

Lemma handle_sequence_mono (e : env) (rq : request) (s : store) :
  served_alone e →
  (sqlite_sequence (index s) <= sqlite_sequence (index (handle e rq s)))%Z.
Proof.
  intros (t & rnd & iso & faults & ->). destruct rq as [document | id]; unfold handle.
  - destruct (upload_effect document t rnd iso faults s)
      as [_ [[_ ->] | [(_ & _ & ->) | (_ & -> & _)]]]; cbn;
      unfold next_rowid; lia.
  - destruct (delete_index_effect t rnd iso faults s id) as [-> | ->]; cbn; lia.
Qed.

Lemma run_sequence_mono (rqs : list (env * request)) (s : store) :
  Forall (λ er, served_alone er.1) rqs →
  (sqlite_sequence (index s) <= sqlite_sequence (index (run rqs s)))%Z.
Proof.
  revert s; induction rqs as [|[e rq] rqs IH]; intros s Hall; [done |].
  apply Forall_cons in Hall as [He Hall]. cbn.
  etrans; [by apply (handle_sequence_mono e rq) | by apply IH].
Qed.

(** X7: ids are never handed out twice.  Of two successful uploads, with any
    requests served in between (deletions of the first document included),
    the later one gets the larger id. *)
Theorem ids_never_reused
    (e1 e2 : env) (d1 d2 : UploadFile) (rqs : list (env * request))
    (s : store) (info1 info2 : document_info) :
  served_alone e1 → served_alone e2 → Forall (λ er, served_alone er.1) rqs →
  outcome (serve (upload_document d1) e1 s) = inr info1 →
  outcome (serve (upload_document d2) e2 (run rqs (handle e1 (Upload d1) s)))
  = inr info2 →
  (info_id info1 < info_id info2)%Z.
Proof.
  intros (t1 & rnd1 & iso1 & faults1 & ->) (t2 & rnd2 & iso2 & faults2 & ->)
         Hall Hfirst Hsecond.
  assert (sqlite_sequence (index (handle (sequential t1 rnd1 iso1 faults1) (Upload d1) s))
          = info_id info1) as Hs1.
  { unfold handle.
    destruct (upload_effect d1 t1 rnd1 iso1 faults1 s)
      as [_ [[[x Hx] _] | [([x Hx] & _) | (Hok & Hafter & _)]]]; try congruence.
    rewrite Hok in Hfirst. injection Hfirst as <-. by rewrite Hafter. }
  pose proof (run_sequence_mono rqs
                (handle (sequential t1 rnd1 iso1 faults1) (Upload d1) s) Hall) as Hmono.
  rewrite Hs1 in Hmono.
  set (s2 := run rqs (handle (sequential t1 rnd1 iso1 faults1) (Upload d1) s)) in *.
  destruct (upload_effect d2 t2 rnd2 iso2 faults2 s2)
    as [_ [[[x Hx] _] | [([x Hx] & _) | (Hok2 & _)]]]; try congruence.
  rewrite Hok2 in Hsecond. injection Hsecond as <-. cbn [info_id].
  pose proof (proj2 (next_rowid_fresh (index s2))). lia.
Qed.

(** ** What is in the index *)

Lemma stored_valid_empty : stored_valid empty_store.
Proof. intros id r Hrow. cbn in Hrow. by rewrite lookup_empty in Hrow. Qed.

Lemma upload_stored_valid (e : env) (document : UploadFile) (s : store) :
  stored_valid s → regular e (Upload document) s →
  stored_valid (handle e (Upload document) s).
Proof.
  intros Hs [(t & rnd & iso & faults & ->) [Hsel Hunused]]. cbn in Hsel.
  unfold handle.
  destruct (upload_effect document t rnd iso faults s)
    as [Hframe [[_ Hidx] | [(_ & Hfail & _) | (_ & Hafter & Hacc & Hsize)]]];
    [| congruence |].
  - intros id r Hrow. rewrite Hidx in Hrow.
    rewrite Hframe by (by apply (Hunused id)). by apply (Hs id).
  - rewrite Hafter. clear Hafter Hframe.
    pose proof (accepted_is_open _ Hacc) as Hopen.
    rewrite Hopen in Hacc. apply validate_pdf_file_accepts in Hacc as [Hname Hsig].
    intros id r. cbn [index documents disk].
    intros [[_ <-] | [_ Hrow]]%lookup_insert_Some.
    + exists (data (file document)). cbn. rewrite lookup_insert_eq.
      repeat split; try done.
      destruct Hsig as [rest ->]. rewrite length_app. cbn. lia.
    + rewrite !lookup_insert_ne by (symmetry; by apply (Hunused id)).
      by apply (Hs id).
Qed.

Lemma delete_stored_valid (e : env) (id : Z) (s : store) :
  consistent s → stored_valid s → regular e (Delete id) s →
  stored_valid (handle e (Delete id) s).
Proof.
  intros [_ Hpaths] Hs [(t & rnd & iso & faults & ->) [Hdel Hcommit]].
  cbn in Hdel, Hcommit. unfold handle.
  destruct (delete_effect t rnd iso faults s id Hdel Hcommit) as [-> | (r & Hrow & ->)];
    [done |].
  intros id' r'. cbn [index documents disk]. intros [Hne Hrow']%lookup_delete_Some.
  rewrite lookup_delete_ne; [by apply (Hs id') |].
  intros Hsame. apply Hne. by apply (Hpaths id id' r r').
Qed.

Lemma run_stored_valid (rqs : list (env * request)) (s : store) :
  consistent s → stored_valid s → regular_run rqs s → stored_valid (run rqs s).
Proof.
  revert s; induction rqs as [|[e rq] rqs IH]; intros s Hc Hs Hrun; [done |].
  destruct Hrun as [Hreg Hrun]. cbn. apply IH; [| | done].
  - destruct rq; [by apply upload_consistent | by apply delete_consistent].
  - destruct rq; [by apply upload_stored_valid | by apply delete_stored_valid].
Qed.

(** X8: starting from the empty stores, after any regular sequence of
    uploads and deletions, every document of the index is a validated PDF:
    its blob is on disk, begins with [%PDF], has exactly the recorded size,
    which is positive and at most [MAX_FILE_SIZE]; the recorded client name
    ends in [.pdf]; and the recorded path is the upload directory joined
    with the recorded storage name. *)
Theorem stored_documents_valid (rqs : list (env * request)) :
  regular_run rqs empty_store → stored_valid (run rqs empty_store).
Proof.
  intros Hrun.
  by apply (run_stored_valid rqs empty_store consistent_empty stored_valid_empty).
Qed.

(** ** Uploads followed by other requests *)

(** X9: a successful upload under a path that was free, followed by the
    deletion of the id it returned, leaves the files and the rows as they
    were before the upload; only the id counter has advanced. *)
Theorem upload_then_delete_restores
    (document : UploadFile) (t : Z) (rnd : nat) (iso : string) (faults : io → bool)
    (t' : Z) (rnd' : nat) (iso' : string) (s : store) (info : document_info) :
  let e := sequential t rnd iso faults in
  let up := serve (upload_document document) e s in
  outcome up = inr info →
  disk s !! storage_path e (filename document) = None →
  let del := serve (delete_document (info_id info)) (reliable t' rnd' iso') (after up) in
  outcome del = inr tt
  ∧ disk (after del) = disk s
  ∧ documents (index (after del)) = documents (index s)
  ∧ sqlite_sequence (index (after del)) = info_id info
  ∧ (sqlite_sequence (index s) < info_id info)%Z.
Proof.
  intros e up Hok Hfree del. subst del up e.
  destruct (upload_effect document t rnd iso faults s)
    as [_ [[[x Hx] _] | [([x Hx] & _) | (Hup & Hafter & _)]]]; try congruence.
  rewrite Hup in Hok. injection Hok as <-. rewrite Hafter. cbn [info_id].
  unfold reliable.
  rewrite (delete_ok _ _ _ (λ _, false) _ _ eq_refl
             (row_of (sequential t rnd iso faults) (filename document)
                (data (file document))));
    [| cbn; apply lookup_insert_eq | done ..].
  unfold outcome, after. cbn.
  rewrite delete_insert_eq, (delete_insert_id _ _ _ Hfree).
  rewrite (delete_insert_id _ _ _ (proj1 (next_rowid_fresh (index s)))).
  repeat split. apply next_rowid_fresh.
Qed.

(** X10: after a successful upload, a listing has the entry that the upload
    returned; after the deletion of its id, no listing has an entry with
    that id. *)
Theorem upload_listed_until_deleted
    (document : UploadFile) (t : Z) (rnd : nat) (iso : string) (faults : io → bool)
    (t' : Z) (rnd' : nat) (iso' : string) (s : store) (info : document_info) :
  let up := serve (upload_document document) (sequential t rnd iso faults) s in
  outcome up = inr info →
  let e' := reliable t' rnd' iso' in
  let del := serve (delete_document (info_id info)) e' (after up) in
  (∃ listing, outcome (serve get_documents e' (after up)) = inr listing
              ∧ info ∈ listing)
  ∧ outcome del = inr tt
  ∧ ∃ listing, outcome (serve get_documents e' (after del)) = inr listing
               ∧ ∀ entry, entry ∈ listing → info_id entry ≠ info_id info.
Proof.
  intros up Hok e' del. subst del e' up.
  destruct (upload_effect document t rnd iso faults s)
    as [_ [[[x Hx] _] | [([x Hx] & _) | (Hup & Hafter & _)]]]; try congruence.
  rewrite Hup in Hok. injection Hok as <-. rewrite Hafter. cbn [info_id].
  set (row := row_of (sequential t rnd iso faults) (filename document)
                (data (file document))).
  unfold reliable. split; [| split].
  - destruct (get_documents_run t' rnd' iso' (λ _, false)
                (mkStore (<[storage_path (sequential t rnd iso faults) (filename document)
                            := data (file document)]>
                            (<[storage_path (sequential t rnd iso faults)
                                 (filename document) := []]> (disk s)))
                   (mkDatabase (<[next_rowid (index s) := row]> (documents (index s)))
                               (next_rowid (index s)))) eq_refl)
      as (listing & Hlist & Hmem & _).
    exists listing. rewrite Hlist. split; [done |].
    apply Hmem. exists row. cbn. split; [apply lookup_insert_eq | done].
  - by rewrite (delete_ok _ _ _ (λ _, false) _ _ eq_refl row);
      [| cbn; apply lookup_insert_eq | done ..].
  - rewrite (delete_ok _ _ _ (λ _, false) _ _ eq_refl row);
      [| cbn; apply lookup_insert_eq | done ..].
    unfold after. cbn [fst snd].
    match goal with |- context [serve get_documents _ ?s'] =>
      destruct (get_documents_run t' rnd' iso' (λ _, false) s' eq_refl)
        as (listing & Hlist & Hmem & _) end.
    exists listing. rewrite Hlist. split; [done |].
    intros entry (r & Hrow & _)%Hmem Hsame. cbn in Hrow.
    rewrite Hsame, lookup_delete_eq in Hrow. discriminate.
Qed.

(** ** Failure paths of an upload *)

(** X11: when the [open] of the blob raises although a file exists at the
    generated path (left there by an earlier upload under the same key), the
    clean-up of [upload_document] unlinks that file: the answer is the 500,
    the older file is gone and the index is as it was. *)
Theorem upload_open_failure_removes_existing_file
    (name : string) (content old : list byte) (p : nat)
    (t : Z) (rnd : nat) (iso : string) (faults : io → bool) (s : store) :
  let document := mkUploadFile name (Stream content p false) in
  let e := sequential t rnd iso faults in
  let path := storage_path e name in
  (validate_pdf_file document).1 = true →
  (Z.of_nat (length content) <= MAX_FILE_SIZE)%Z →
  faults IoOpen = true → faults IoUnlink = false →
  disk s !! path = Some old →
  serve (upload_document document) e s
  = (inl (HTTPException 500 "Internal server error during upload"),
     mkStore (delete path (disk s)) (index s),
     [CallOpen path; CallUnlink path]).
Proof.
  intros document e path Hacc Hsize Hopen Hunlink Hold. subst document e.
  rewrite upload_open_fails by done. fold path. by rewrite Hold, Hunlink.
Qed.

(** X12: when the re-read of the row raises after the INSERT has been
    committed, [upload_document] answers the 500 and unlinks the blob, but
    the row stays in the index; a download of its id then answers 404 "File
    not found on disk". *)
Theorem upload_reread_failure_leaves_row
    (name : string) (content : list byte) (p : nat)
    (t : Z) (rnd : nat) (iso : string) (faults : io → bool)
    (t' : Z) (rnd' : nat) (iso' : string) (s : store) :
  let document := mkUploadFile name (Stream content p false) in
  let e := sequential t rnd iso faults in
  let id := next_rowid (index s) in
  (validate_pdf_file document).1 = true →
  (Z.of_nat (length content) <= MAX_FILE_SIZE)%Z →
  faults IoOpen = false → faults IoWrite = false → faults IoInsert = false →
  faults IoCommit = false → faults IoSelect = true → faults IoUnlink = false →
  let resp := serve (upload_document document) e s in
  outcome resp = inl (HTTPException 500 "Internal server error during upload")
  ∧ documents (index (after resp)) !! id = Some (row_of e name content)
  ∧ disk (after resp) !! storage_path e name = None
  ∧ outcome (serve (download_document id) (reliable t' rnd' iso') (after resp))
    = inl (HTTPException 404 "File not found on disk").
Proof.
  intros document e id Hacc Hsize H1 H2 H3 H4 H5 H6 resp. subst resp document e.
  rewrite upload_reread_fails by done. rewrite H6.
  unfold outcome, after. cbn [fst snd index documents disk].
  rewrite lookup_insert_eq, lookup_delete_eq. repeat split.
  unfold reliable.
  by rewrite (download_missing_blob _ _ _ (λ _, false) _ _ eq_refl
                (row_of (sequential t rnd iso faults) name content));
    [| cbn; apply lookup_insert_eq | cbn; apply lookup_delete_eq].
Qed.

(** ** Deletions *)

Section DeleteFaults.

Variables (t : Z) (rnd : nat) (iso : string) (faults : io → bool) (s : store).
Variables (id : Z) (r : document_row).
Let e := sequential t rnd iso faults.

Hypothesis row_present : documents (index s) !! id = Some r.
Hypothesis select_works : faults IoSelect = false.

Let server_fault : exn + unit :=
  inl (HTTPException 500 "Internal server error during deletion").

Lemma delete_unlink_fails (blob : list byte) :
  disk s !! filepath r = Some blob → faults IoUnlink = true →
  serve (delete_document id) e s
  = (server_fault, s, [CallSelect id; CallUnlink (filepath r)]).
Proof. intros Hblob Hunlink. unfold_handler. by crank. Qed.

Lemma delete_statement_fails :
  faults IoUnlink = false → faults IoDelete = true →
  serve (delete_document id) e s
  = (server_fault, mkStore (delete (filepath r) (disk s)) (index s),
     CallSelect id
       :: (if disk s !! filepath r is Some _ then [CallUnlink (filepath r)] else [])
       ++ [CallDelete id]).
Proof.
  intros Hunlink Hdel. unfold_handler. crank.
  destruct (disk s !! filepath r) eqn:Hblob; crank; [done |].
  by rewrite (delete_id (disk s) (filepath r) Hblob), store_eta.
Qed.

Lemma delete_commit_fails :
  faults IoUnlink = false → faults IoDelete = false → faults IoCommit = true →
  serve (delete_document id) e s
  = (server_fault, mkStore (delete (filepath r) (disk s)) (index s),
     CallSelect id
       :: (if disk s !! filepath r is Some _ then [CallUnlink (filepath r)] else [])
       ++ [CallDelete id; RowsAffected 1; CallCommit]).
Proof.
  intros Hunlink Hdel Hcommit. unfold_handler. crank.
  destruct (disk s !! filepath r) eqn:Hblob; crank; [done |].
  by rewrite (delete_id (disk s) (filepath r) Hblob), store_eta.
Qed.

End DeleteFaults.

Lemma after_triple {A} (x : exn + A) (st : store) (made : list event) :
  after (x, st, made) = st.
Proof. reflexivity. Qed.

(** X13: a deletion whose DELETE statement or commit raises answers the 500
    after it has unlinked the blob: the row stays, the blob is gone.  The
    deletion can be repeated: served again with nothing failing, it
    succeeds without calling [unlink] and removes the row. *)
Theorem failed_delete_can_be_retried
    (t : Z) (rnd : nat) (iso : string) (faults : io → bool)
    (t' : Z) (rnd' : nat) (iso' : string) (s : store) (id : Z) (r : document_row) :
  documents (index s) !! id = Some r →
  faults IoSelect = false → faults IoUnlink = false →
  faults IoDelete = true ∨ (faults IoDelete = false ∧ faults IoCommit = true) →
  let first := serve (delete_document id) (sequential t rnd iso faults) s in
  let second := serve (delete_document id) (reliable t' rnd' iso') (after first) in
  outcome first = inl (HTTPException 500 "Internal server error during deletion")
  ∧ after first = mkStore (delete (filepath r) (disk s)) (index s)
  ∧ outcome second = inr tt
  ∧ calls second = [CallSelect id; CallDelete id; RowsAffected 1; CallCommit]
  ∧ after second
    = mkStore (delete (filepath r) (disk s))
        (mkDatabase (delete id (documents (index s))) (sqlite_sequence (index s))).
Proof.
  intros Hrow Hsel Hunlink Hfail first second.
  assert (serve (delete_document id) (reliable t' rnd' iso')
            (mkStore (delete (filepath r) (disk s)) (index s))
          = (inr tt,
             mkStore (delete (filepath r) (disk s))
               (mkDatabase (delete id (documents (index s)))
                           (sqlite_sequence (index s))),
             [CallSelect id; CallDelete id; RowsAffected 1; CallCommit])) as Hsecond.
  { unfold reliable.
    rewrite (delete_ok _ _ _ (λ _, false) _ _ eq_refl r) by done.
    cbn [disk index]. by rewrite lookup_delete_eq, delete_delete_eq. }
  subst second first. destruct Hfail as [Hdel | [Hdel Hcommit]].
  - rewrite (delete_statement_fails t rnd iso faults s id r) by done.
    rewrite !after_triple. by rewrite Hsecond.
  - rewrite (delete_commit_fails t rnd iso faults s id r) by done.
    rewrite !after_triple. by rewrite Hsecond.
Qed.

(** X14: a deletion whose SELECT raises, or whose [unlink] raises, answers
    the 500 and changes nothing: the row and the blob are still there. *)
Theorem delete_early_failure_changes_nothing
    (t : Z) (rnd : nat) (iso : string) (faults : io → bool)
    (s : store) (id : Z) :
  let resp := serve (delete_document id) (sequential t rnd iso faults) s in
  (faults IoSelect = true →
   resp = (inl (HTTPException 500 "Internal server error during deletion"), s,
           [CallSelect id]))
  ∧ (faults IoSelect = false → faults IoUnlink = true →
     ∀ r blob, documents (index s) !! id = Some r →
               disk s !! filepath r = Some blob →
     resp = (inl (HTTPException 500 "Internal server error during deletion"), s,
             [CallSelect id; CallUnlink (filepath r)])).
Proof.
  intros resp. subst resp. split.
  - intros Hsel. unfold_handler. by crank.
  - intros Hsel Hunlink r blob Hrow Hblob. by eapply delete_unlink_fails.
Qed.

(** What a deletion served alone makes of the stores, whatever fails. *)
Lemma delete_effect_any
    (t : Z) (rnd : nat) (iso : string) (faults : io → bool) (s : store) (id : Z) :
  let s' := after (serve (delete_document id) (sequential t rnd iso faults) s) in
  (disk s' = disk s
   ∨ ∃ r, documents (index s) !! id = Some r ∧ disk s' = delete (filepath r) (disk s))
  ∧ (index s' = index s
     ∨ index s' = mkDatabase (delete id (documents (index s)))
                    (sqlite_sequence (index s))).
Proof.
  unfold_handler.
  explore_all; (split; [first [by left | right; by eexists] | auto]).
Qed.

(** X15: a deletion, whatever fails in it, leaves every other document as it
    was: a document with another id, whose blob is at another path than the
    one of the deleted row, keeps its row and its blob, and is downloaded as
    before. *)
Theorem delete_leaves_other_documents
    (t : Z) (rnd : nat) (iso : string) (faults : io → bool)
    (t' : Z) (rnd' : nat) (iso' : string)
    (s : store) (id other : Z) (r' : document_row) (blob : list byte) :
  other ≠ id →
  documents (index s) !! other = Some r' →
  disk s !! filepath r' = Some blob →
  (∀ r, documents (index s) !! id = Some r → filepath r ≠ filepath r') →
  let s' := after (serve (delete_document id) (sequential t rnd iso faults) s) in
  let down := serve (download_document other) (reliable t' rnd' iso') s' in
  documents (index s') !! other = Some r'
  ∧ disk s' !! filepath r' = Some blob
  ∧ outcome down
    = inr (mkFileResponse (filepath r') "application/pdf" (original_name r'))
  ∧ ∀ resp, outcome down = inr resp → body resp (after down) = Some blob.
Proof.
  intros Hne Hrow Hblob Hpaths s' down.
  assert (documents (index s') !! other = Some r') as Hrow'.
  { destruct (delete_effect_any t rnd iso faults s id) as [_ [Hidx | Hidx]];
      fold s' in Hidx; rewrite Hidx; [done |].
    cbn. by rewrite lookup_delete_ne. }
  assert (disk s' !! filepath r' = Some blob) as Hblob'.
  { destruct (delete_effect_any t rnd iso faults s id) as [[Hd | (r & Hr & Hd)] _];
      fold s' in Hd; rewrite Hd; [done |].
    rewrite lookup_delete_ne; [done | by apply Hpaths]. }
  subst down. unfold reliable.
  rewrite (download_ok _ _ _ (λ _, false) s' other eq_refl r' blob Hrow' Hblob').
  repeat split; try done.
  intros resp [= <-]. done.
Qed.

(** X16: for an id that SQLite can bind (one in the signed 64-bit range)
    and that is not in the index, [download_document] and [delete_document]
    both answer 404 "Document not found" after their SELECT, and change
    nothing. *)
Theorem unknown_id_not_found
    (t : Z) (rnd : nat) (iso : string) (faults : io → bool) (s : store) (id : Z) :
  fits_int64 id →
  faults IoSelect = false →
  documents (index s) !! id = None →
  let e := sequential t rnd iso faults in
  serve (download_document id) e s
  = (inl (HTTPException 404 "Document not found"), s, [CallSelect id])
  ∧ serve (delete_document id) e s
    = (inl (HTTPException 404 "Document not found"), s, [CallSelect id]).
Proof.
  intros _ Hsel Hnone e. subst e.
  by rewrite download_unknown, delete_unknown.
Qed.

(** ** Status codes *)

(** X17: whatever the environment does (failing calls, other requests in
    between), an upload is answered with 200, 400 or 500, a download and a
    deletion with 200, 404 or 500, and a listing with 200 or 500. *)
Theorem status_codes (e : env) (s : store) (document : UploadFile) (id : Z) :
  status_code_of (outcome (serve (upload_document document) e s)) ∈ [200; 400; 500]
  ∧ status_code_of (outcome (serve (download_document id) e s)) ∈ [200; 404; 500]
  ∧ status_code_of (outcome (serve (delete_document id) e s)) ∈ [200; 404; 500]
  ∧ status_code_of (outcome (serve get_documents e s)) ∈ [200; 500].
Proof.
  split; [| split; [| split]].
  - destruct ((validate_pdf_file document).1) eqn:Hacc; cycle 1.
    { rewrite upload_rejected_by_validator by done. cbn. set_solver. }
    rewrite (accepted_is_open _ Hacc) in Hacc |- *.
    unfold_handler. rewrite accepted_validate by done.
    explore_all; destruct (_ <? _)%Z; explore_all; cbn; set_solver.
  - unfold_handler. explore_all; cbn; set_solver.
  - unfold_handler. explore_all; cbn; set_solver.
  - unfold_handler. explore_all; cbn; set_solver.
Qed.


(** ** Instances of the further properties *)

Lemma one_document_row :
  documents (index one_document) !! 1
  = Some (row_of sample_env "Report.PDF" (data (file sample_pdf))).
Proof. by vm_compute. Qed.

Lemma two_documents_rows :
  documents (index two_documents) !! 1
  = Some (row_of sample_env "Report.PDF" (data (file sample_pdf)))
  ∧ documents (index two_documents) !! 2
    = Some (row_of next_env "Report.PDF" (data (file other_pdf)))
  ∧ disk two_documents !! storage_path next_env "Report.PDF"
    = Some (data (file other_pdf)).
Proof. by vm_compute. Qed.

(** Two uploads in the same second with the same draw and name. *)
Lemma generated_names_coincide_witness :
  let st := mkState empty_store None None [] in
  (generate_unique_filename "Report.PDF" sample_env st).1
  = (generate_unique_filename "Report.PDF" later_env st).1
  ∧ time_time sample_env = time_time later_env
  ∧ randint sample_env 1000 9999 = randint later_env 1000 9999.
Proof.
  intros st.
  assert ((generate_unique_filename "Report.PDF" sample_env st).1
          = (generate_unique_filename "Report.PDF" later_env st).1) as Hsame
    by (by vm_compute).
  assert (0 <= time_time sample_env)%Z as H1 by (by vm_compute).
  assert (0 <= time_time later_env)%Z as H2 by (by vm_compute).
  destruct (generated_names_coincide _ _ _ _ _ _ H1 H2 Hsame) as (Ht & Hr & _).
  exact (conj Hsame (conj Ht Hr)).
Defined.

(** The listing of the two sample documents. *)
Lemma get_documents_listing_witness :
  ∃ listing,
    serve get_documents sample_env two_documents
    = (inr listing, two_documents, [CallSelectAll])
    ∧ length listing = size (documents (index two_documents))
    ∧ Sorted not_older listing.
Proof.
  destruct (get_documents_listing 1700000000 4242 "2023-11-14T22:13:20.125000"
              (λ _, false) two_documents eq_refl)
    as (listing & Hserve & _ & _ & Hlen & Hsorted).
  exact (ex_intro _ listing (conj Hserve (conj Hlen Hsorted))).
Defined.

(** A listing and a download whose SELECT raises. *)
Lemma read_handlers_change_nothing_witness :
  let e := sequential 1700000000 4242 "2023-11-14T22:13:20.125000" (λ _, true) in
  after (serve get_documents e one_document) = one_document
  ∧ outcome (serve get_documents e one_document)
    = inl (HTTPException 500 "Internal server error")
  ∧ outcome (serve (download_document 1) e one_document)
    = inl (HTTPException 500 "Internal server error during download").
Proof.
  intros e.
  destruct (read_handlers_change_nothing 1700000000 4242 "2023-11-14T22:13:20.125000"
              (λ _, true) one_document 1) as (Hsame & _ & Hlist & Hdown).
  exact (conj Hsame (conj (Hlist eq_refl) (Hdown eq_refl))).
Defined.

(** The upload of the sample file into the empty stores. *)
Lemma upload_touches_own_path_and_row_witness :
  let e := sequential 1700000000 4242 "2023-11-14T22:13:20.125000" (λ _, false) in
  let resp := serve (upload_document sample_pdf) e empty_store in
  raises e IoSelect = false
  ∧ (∀ q, q ≠ storage_path e (filename sample_pdf) →
          disk (after resp) !! q = disk empty_store !! q)
  ∧ match outcome resp with
    | inl _ => index (after resp) = index empty_store
    | inr info =>
        info = mkInfo (next_rowid (index empty_store)) (filename sample_pdf)
                 (Z.of_nat (length (data (file sample_pdf))))
                 "2023-11-14T22:13:20.125000"
        ∧ documents (index empty_store) !! info_id info = None
        ∧ index (after resp)
          = mkDatabase
              (<[info_id info := row_of e (filename sample_pdf)
                                   (data (file sample_pdf))]>
                 (documents (index empty_store)))
              (info_id info)
    end.
Proof.
  intros e resp. subst resp e.
  destruct (upload_touches_own_path_and_row sample_pdf 1700000000 4242
              "2023-11-14T22:13:20.125000" (λ _, false) empty_store)
    as [Hframe Hindex].
  pose proof (Hindex eq_refl) as Hrow.
  split; [reflexivity |]. split; [exact Hframe | exact Hrow].
Defined.

(** The sample file uploaded and deleted, then the other file uploaded. *)
Lemma ids_never_reused_witness :
  let info1 := mkInfo 1 "Report.PDF" 6 "2023-11-14T22:13:20.125000" in
  let info2 := mkInfo 2 "Report.PDF" 7 "2023-11-14T22:13:21.250000" in
  let rqs := [(later_env, Delete 1)] in
  outcome (serve (upload_document sample_pdf) sample_env empty_store) = inr info1
  ∧ outcome (serve (upload_document other_pdf) next_env
               (run rqs (handle sample_env (Upload sample_pdf) empty_store)))
    = inr info2
  ∧ (info_id info1 < info_id info2)%Z.
Proof.
  intros info1 info2 rqs.
  assert (outcome (serve (upload_document sample_pdf) sample_env empty_store)
          = inr info1) as H1 by (by vm_compute).
  assert (outcome (serve (upload_document other_pdf) next_env
                     (run rqs (handle sample_env (Upload sample_pdf) empty_store)))
          = inr info2) as H2 by (by vm_compute).
  assert (served_alone sample_env) as Ha1 by (by eexists _, _, _, _).
  assert (served_alone next_env) as Ha2 by (by eexists _, _, _, _).
  assert (Forall (λ er : env * request, served_alone er.1) rqs) as Hall.
  { apply Forall_cons. split; [by eexists _, _, _, _ | apply Forall_nil_2]. }
  exact (conj H1 (conj H2
           (ids_never_reused sample_env next_env sample_pdf other_pdf rqs
              empty_store info1 info2 Ha1 Ha2 Hall H1 H2))).
Defined.

Lemma sample_run_regular :
  regular_run [(sample_env, Upload sample_pdf); (next_env, Upload other_pdf);
               (next_env, Delete 1)] empty_store.
Proof.
  cbn [regular_run]. split; [| split; [| split; [| exact I]]].
  - split; [by eexists _, _, _, _ |].
    split; [reflexivity |]. intros id r Hrow.
    change (documents (index empty_store)) with (∅ : gmap Z document_row) in Hrow.
    by rewrite lookup_empty in Hrow.
  - split; [by eexists _, _, _, _ |].
    split; [reflexivity |]. intros id r Hrow.
    rewrite sample_upload_store in Hrow. unfold index, documents in Hrow.
    apply lookup_insert_Some in Hrow as [[_ <-] | [_ Hrow]].
    + by vm_compute.
    + by rewrite lookup_empty in Hrow.
  - split; [by eexists _, _, _, _ |]. split; reflexivity.
Qed.

(** Two uploads and the deletion of the first document. *)
Lemma stored_documents_valid_witness :
  let rqs := [(sample_env, Upload sample_pdf); (next_env, Upload other_pdf);
              (next_env, Delete 1)] in
  regular_run rqs empty_store ∧ stored_valid (run rqs empty_store).
Proof.
  exact (conj sample_run_regular (stored_documents_valid _ sample_run_regular)).
Defined.

(** The sample file uploaded into the empty stores and deleted again. *)
Lemma upload_then_delete_restores_witness :
  let e := sequential 1700000000 4242 "2023-11-14T22:13:20.125000" (λ _, false) in
  let up := serve (upload_document sample_pdf) e empty_store in
  let info := mkInfo 1 "Report.PDF" 6 "2023-11-14T22:13:20.125000" in
  let del := serve (delete_document (info_id info))
               (reliable 1700000001 977 "2023-11-14T22:13:21.250000") (after up) in
  outcome up = inr info
  ∧ disk empty_store !! storage_path e (filename sample_pdf) = None
  ∧ outcome del = inr tt
  ∧ disk (after del) = disk empty_store.
Proof.
  intros e up info del.
  assert (outcome up = inr info) as Hup by (by vm_compute).
  assert (disk empty_store !! storage_path e (filename sample_pdf) = None) as Hfree
    by (by vm_compute).
  destruct (upload_then_delete_restores sample_pdf 1700000000 4242
              "2023-11-14T22:13:20.125000" (λ _, false)
              1700000001 977 "2023-11-14T22:13:21.250000" empty_store info Hup Hfree)
    as (Hdel & Hdisk & _).
  exact (conj Hup (conj Hfree (conj Hdel Hdisk))).
Defined.

(** The sample file uploaded, listed, deleted and listed again. *)
Lemma upload_listed_until_deleted_witness :
  let up := serve (upload_document sample_pdf)
              (sequential 1700000000 4242 "2023-11-14T22:13:20.125000" (λ _, false))
              empty_store in
  let info := mkInfo 1 "Report.PDF" 6 "2023-11-14T22:13:20.125000" in
  let e' := reliable 1700000001 977 "2023-11-14T22:13:21.250000" in
  outcome up = inr info
  ∧ ∃ listing, outcome (serve get_documents e' (after up)) = inr listing
               ∧ info ∈ listing.
Proof.
  intros up info e'.
  assert (outcome up = inr info) as Hup by (by vm_compute).
  destruct (upload_listed_until_deleted sample_pdf 1700000000 4242
              "2023-11-14T22:13:20.125000" (λ _, false)
              1700000001 977 "2023-11-14T22:13:21.250000" empty_store info Hup)
    as (Hlisted & _).
  exact (conj Hup Hlisted).
Defined.

(** A second upload under the key of the first whose [open] raises. *)
Lemma upload_open_failure_removes_existing_file_witness :
  let faults := λ p, match p with IoOpen => true | _ => false end in
  let e := sequential 1700000000 4242 "2023-11-14T22:13:20.875000" faults in
  let path := storage_path e "Report.PDF" in
  disk one_document !! path = Some (data (file sample_pdf))
  ∧ serve (upload_document
             (mkUploadFile "Report.PDF" (Stream (data (file other_pdf)) 0 false)))
          e one_document
    = (inl (HTTPException 500 "Internal server error during upload"),
       mkStore (delete path (disk one_document)) (index one_document),
       [CallOpen path; CallUnlink path]).
Proof.
  intros faults e path.
  assert (disk one_document !! path = Some (data (file sample_pdf))) as Hold
    by (by vm_compute).
  assert ((validate_pdf_file
             (mkUploadFile "Report.PDF" (Stream (data (file other_pdf)) 0 false))).1
          = true) as Hacc by reflexivity.
  assert (Z.of_nat (length (data (file other_pdf))) <= MAX_FILE_SIZE)%Z as Hsize
    by (by vm_compute).
  exact (conj Hold
           (upload_open_failure_removes_existing_file "Report.PDF"
              (data (file other_pdf)) (data (file sample_pdf)) 0
              1700000000 4242 "2023-11-14T22:13:20.875000" faults one_document
              Hacc Hsize eq_refl eq_refl Hold)).
Defined.

(** An upload whose re-read raises. *)
Lemma upload_reread_failure_leaves_row_witness :
  let faults := λ p, match p with IoSelect => true | _ => false end in
  let e := sequential 1700000000 4242 "2023-11-14T22:13:20.125000" faults in
  let resp := serve (upload_document
                       (mkUploadFile "Report.PDF"
                          (Stream (data (file sample_pdf)) 0 false)))
                e empty_store in
  outcome resp = inl (HTTPException 500 "Internal server error during upload")
  ∧ documents (index (after resp)) !! next_rowid (index empty_store)
    = Some (row_of e "Report.PDF" (data (file sample_pdf)))
  ∧ disk (after resp) !! storage_path e "Report.PDF" = None.
Proof.
  intros faults e resp.
  destruct (upload_reread_failure_leaves_row "Report.PDF" (data (file sample_pdf)) 0
              1700000000 4242 "2023-11-14T22:13:20.125000" faults
              1700000001 977 "2023-11-14T22:13:21.250000" empty_store
              sample_pdf_accepted sample_pdf_size
              eq_refl eq_refl eq_refl eq_refl eq_refl eq_refl)
    as (Hout & Hrow & Hblob & _).
  exact (conj Hout (conj Hrow Hblob)).
Defined.

(** A deletion of document 1 whose commit raises, and its repetition. *)
Lemma failed_delete_can_be_retried_witness :
  let faults := λ p, match p with IoCommit => true | _ => false end in
  let r := row_of sample_env "Report.PDF" (data (file sample_pdf)) in
  let first := serve (delete_document 1)
                 (sequential 1700000000 4242 "2023-11-14T22:13:20.875000" faults)
                 one_document in
  let second := serve (delete_document 1)
                  (reliable 1700000001 977 "2023-11-14T22:13:21.250000")
                  (after first) in
  documents (index one_document) !! 1 = Some r
  ∧ outcome first = inl (HTTPException 500 "Internal server error during deletion")
  ∧ outcome second = inr tt.
Proof.
  intros faults r first second.
  destruct (failed_delete_can_be_retried 1700000000 4242 "2023-11-14T22:13:20.875000"
              faults 1700000001 977 "2023-11-14T22:13:21.250000" one_document 1 r
              one_document_row eq_refl eq_refl (or_intror (conj eq_refl eq_refl)))
    as (Hfirst & _ & Hsecond & _).
  exact (conj one_document_row (conj Hfirst Hsecond)).
Defined.

(** A deletion of document 1 whose [unlink] raises. *)
Lemma delete_early_failure_changes_nothing_witness :
  let faults := λ p, match p with IoUnlink => true | _ => false end in
  let r := row_of sample_env "Report.PDF" (data (file sample_pdf)) in
  documents (index one_document) !! 1 = Some r
  ∧ disk one_document !! filepath r = Some (data (file sample_pdf))
  ∧ serve (delete_document 1)
          (sequential 1700000000 4242 "2023-11-14T22:13:20.875000" faults)
          one_document
    = (inl (HTTPException 500 "Internal server error during deletion"),
       one_document, [CallSelect 1; CallUnlink (filepath r)]).
Proof.
  intros faults r.
  assert (disk one_document !! filepath r = Some (data (file sample_pdf))) as Hblob
    by (by vm_compute).
  destruct (delete_early_failure_changes_nothing 1700000000 4242
              "2023-11-14T22:13:20.875000" faults one_document 1) as [_ Hunlink].
  exact (conj one_document_row
           (conj Hblob (Hunlink eq_refl eq_refl r _ one_document_row Hblob))).
Defined.

(** Document 1 deleted while document 2 is in the stores. *)
Lemma delete_leaves_other_documents_witness :
  let r' := row_of next_env "Report.PDF" (data (file other_pdf)) in
  let s' := after (serve (delete_document 1)
                     (sequential 1700000002 4242 "2023-11-14T22:13:22.500000"
                        (λ _, false))
                     two_documents) in
  documents (index two_documents) !! 2 = Some r'
  ∧ disk two_documents !! filepath r' = Some (data (file other_pdf))
  ∧ documents (index s') !! 2 = Some r'
  ∧ disk s' !! filepath r' = Some (data (file other_pdf)).
Proof.
  intros r' s'.
  destruct two_documents_rows as (Hrow1 & Hrow2 & Hblob).
  assert (∀ r, documents (index two_documents) !! 1 = Some r →
               filepath r ≠ filepath r') as Hpaths.
  { intros r Hr. rewrite Hrow1 in Hr. injection Hr as <-. by vm_compute. }
  destruct (delete_leaves_other_documents 1700000002 4242 "2023-11-14T22:13:22.500000"
              (λ _, false) 1700000002 4242 "2023-11-14T22:13:22.500000"
              two_documents 1 2 r' (data (file other_pdf))
              ltac:(discriminate) Hrow2 Hblob Hpaths)
    as (Hkept & Hblob' & _).
  exact (conj Hrow2 (conj Hblob (conj Hkept Hblob'))).
Defined.

(** An id that was never handed out. *)
Lemma unknown_id_not_found_witness :
  let e := sequential 1700000000 4242 "2023-11-14T22:13:20.125000" (λ _, false) in
  fits_int64 7
  ∧ documents (index one_document) !! 7 = None
  ∧ serve (download_document 7) e one_document
    = (inl (HTTPException 404 "Document not found"), one_document, [CallSelect 7]).
Proof.
  intros e.
  assert (fits_int64 7) as Hfits by (unfold fits_int64; lia).
  assert (documents (index one_document) !! 7 = None) as Hnone by (by vm_compute).
  destruct (unknown_id_not_found 1700000000 4242 "2023-11-14T22:13:20.125000"
              (λ _, false) one_document 7 Hfits eq_refl Hnone) as [Hdown _].
  exact (conj Hfits (conj Hnone Hdown)).
Defined.
